(** * gio/inotify/inotify-helper.c

    A shallow embedding of the inotify helper of GLib's file monitor
    (event translation and subscription life cycle), and the properties
    of its functions. *)

From Stdlib Require Import ZArith Lia.
From stdpp Require Import base tactics option list strings gmap.

Local Open Scope Z_scope.

(** ** Integer types *)

(** [guint32] values are integers in [0, 2^32); a result that leaves the
    range is reduced modulo [2^32]. *)
Definition uint32 (z : Z) : Z := z mod 2 ^ 32.

(** ** The inotify vocabulary *)

Module Inotify.

(** Modelled from the spec: the kernel bit constants of <sys/inotify.h>,
    a fixed external vocabulary whose header is not part of this file.
    The values are the ones of the Linux inotify interface. *)
Definition IN_ACCESS        : Z := 0x00000001.
Definition IN_MODIFY        : Z := 0x00000002.
Definition IN_ATTRIB        : Z := 0x00000004.
Definition IN_CLOSE_WRITE   : Z := 0x00000008.
Definition IN_CLOSE_NOWRITE : Z := 0x00000010.
Definition IN_OPEN          : Z := 0x00000020.
Definition IN_MOVED_FROM    : Z := 0x00000040.
Definition IN_MOVED_TO      : Z := 0x00000080.
Definition IN_CREATE        : Z := 0x00000100.
Definition IN_DELETE        : Z := 0x00000200.
Definition IN_DELETE_SELF   : Z := 0x00000400.
Definition IN_MOVE_SELF     : Z := 0x00000800.
Definition IN_UNMOUNT       : Z := 0x00002000.
Definition IN_Q_OVERFLOW    : Z := 0x00004000.
Definition IN_IGNORED       : Z := 0x00008000.
Definition IN_ISDIR         : Z := 0x40000000.

(** [#define IN_MOVE (IN_MOVED_FROM | IN_MOVED_TO)] *)
Definition IN_MOVE : Z := Z.lor IN_MOVED_FROM IN_MOVED_TO.

End Inotify.
Export Inotify.

(** Modelled from the spec: the event kinds of [GFileMonitorEvent]
    (declared in gio/gioenums.h, not part of this file) that the helper
    hands to a file monitor.  [G_FILE_MONITOR_EVENT_NONE] stands for the
    value [-1] that [ih_mask_to_EventFlags] returns for a mask it does not
    translate: it is no member of the enumeration, and the monitor drops an
    event of that kind. *)
Inductive GFileMonitorEvent : Type :=
  | G_FILE_MONITOR_EVENT_CHANGED
  | G_FILE_MONITOR_EVENT_CHANGES_DONE_HINT
  | G_FILE_MONITOR_EVENT_DELETED
  | G_FILE_MONITOR_EVENT_CREATED
  | G_FILE_MONITOR_EVENT_ATTRIBUTE_CHANGED
  | G_FILE_MONITOR_EVENT_UNMOUNTED
  | G_FILE_MONITOR_EVENT_RENAMED
  | G_FILE_MONITOR_EVENT_MOVED_IN
  | G_FILE_MONITOR_EVENT_MOVED_OUT
  | G_FILE_MONITOR_EVENT_NONE.

(** ** [ih_mask_to_EventFlags] *)

(** [mask &= ~IN_ISDIR]: the complement is taken in 32 bits. *)
Definition clear_isdir (mask : Z) : Z :=
  Z.land mask (uint32 (Z.lnot IN_ISDIR)).

(** The [switch] of the source, one test per [case] label, in the order of
    the source.  The labels that fall through to [default] are kept. *)
Definition ih_mask_to_EventFlags (mask : Z) : GFileMonitorEvent :=
  let mask := clear_isdir mask in
  if mask =? IN_MODIFY then G_FILE_MONITOR_EVENT_CHANGED
  else if mask =? IN_CLOSE_WRITE then G_FILE_MONITOR_EVENT_CHANGES_DONE_HINT
  else if mask =? IN_ATTRIB then G_FILE_MONITOR_EVENT_ATTRIBUTE_CHANGED
  else if (mask =? IN_MOVE_SELF) || (mask =? IN_DELETE)
          || (mask =? IN_DELETE_SELF) then G_FILE_MONITOR_EVENT_DELETED
  else if mask =? IN_CREATE then G_FILE_MONITOR_EVENT_CREATED
  else if mask =? IN_MOVED_FROM then G_FILE_MONITOR_EVENT_MOVED_OUT
  else if mask =? IN_MOVED_TO then G_FILE_MONITOR_EVENT_MOVED_IN
  else if mask =? IN_UNMOUNT then G_FILE_MONITOR_EVENT_UNMOUNTED
  else if (mask =? IN_Q_OVERFLOW) || (mask =? IN_OPEN)
          || (mask =? IN_CLOSE_NOWRITE) || (mask =? IN_ACCESS)
          || (mask =? IN_IGNORED) then G_FILE_MONITOR_EVENT_NONE
  else G_FILE_MONITOR_EVENT_NONE.

(** *** The mapping as a table *)

(** Looking a stripped mask up in a table of rows (raw kind, event kind);
    a mask with no row gets the value [-1]. *)
Fixpoint table_kind (table : list (Z * GFileMonitorEvent)) (mask : Z)
  : GFileMonitorEvent :=
  match table with
  | [] => G_FILE_MONITOR_EVENT_NONE
  | (raw, kind) :: rows => if mask =? raw then kind else table_kind rows mask
  end.

(** The table in the words of the specification: seven rows. *)
Definition spec_table : list (Z * GFileMonitorEvent) :=
  [ (IN_MODIFY, G_FILE_MONITOR_EVENT_CHANGED);
    (IN_CLOSE_WRITE, G_FILE_MONITOR_EVENT_CHANGES_DONE_HINT);
    (IN_ATTRIB, G_FILE_MONITOR_EVENT_ATTRIBUTE_CHANGED);
    (IN_CREATE, G_FILE_MONITOR_EVENT_CREATED);
    (IN_MOVED_FROM, G_FILE_MONITOR_EVENT_MOVED_OUT);
    (IN_MOVED_TO, G_FILE_MONITOR_EVENT_MOVED_IN);
    (IN_UNMOUNT, G_FILE_MONITOR_EVENT_UNMOUNTED) ].

(** The mapping in the words of the specification: strip the is-directory
    flag, match against [spec_table], everything else is ignored. *)
Definition spec_mask_to_kind (mask : Z) : GFileMonitorEvent :=
  table_kind spec_table (clear_isdir mask).

(** The rows of the [switch] that return [G_FILE_MONITOR_EVENT_DELETED]. *)
Definition deleted_rows : list (Z * GFileMonitorEvent) :=
  [ (IN_MOVE_SELF, G_FILE_MONITOR_EVENT_DELETED);
    (IN_DELETE, G_FILE_MONITOR_EVENT_DELETED);
    (IN_DELETE_SELF, G_FILE_MONITOR_EVENT_DELETED) ].

(** The raw kinds that the source lists next to [default]. *)
Definition ignored_raw_kinds : list Z :=
  [ IN_OPEN; IN_CLOSE_NOWRITE; IN_ACCESS; IN_Q_OVERFLOW; IN_IGNORED ].

(** ** Data *)

(** Modelled from the spec: a raw event, [ik_event_t], declared in
    inotify-kernel.h, which is not part of this file: a watch handle, a
    bitmask, an optional name, an optional paired event and a timestamp.
    These are the fields that this file reads; [name] and [pair] are
    pointers that may be [NULL]. *)
Module Ev.
#[warnings="-register-all"]
Inductive ik_event_t : Type :=
  Build {
    wd : Z;                      (* gint32 *)
    mask : Z;                    (* guint32 *)
    name : option string;
    pair : option ik_event_t;
    timestamp : Z                (* gint64 *)
  }.
End Ev.
Abbreviation ik_event_t := Ev.ik_event_t.

(** Modelled from the spec: a subscription, [inotify_sub], declared in
    inotify-sub.h, which is not part of this file: a directory path, an
    optional file name, a cancelled flag and a reference to the sink of the
    consumer.  These are the fields that this file reads or writes;
    [user_data] is the address of the file monitor source that receives the
    events. *)
Record inotify_sub : Type :=
  { dirname : string;
    filename : option string;
    cancelled : bool;
    user_data : Z }.

Definition set_cancelled (b : bool) (s : inotify_sub) : inotify_sub :=
  {| dirname := dirname s; filename := filename s;
     cancelled := b; user_data := user_data s |}.

(** Subscriptions are passed by address. *)
Abbreviation sub_ptr := positive (only parsing).

(** A [GFile] object, by its address. *)
Abbreviation GFile := positive (only parsing).

(** The two callbacks that this file registers with its collaborators. *)
Inductive callback : Type :=
  | ih_event_callback_fn
  | ih_not_missing_callback_fn.

(** ** The collaborators *)

(** The functions this file calls in inotify-path.c, inotify-missing.c and
    GLib, each with the type of its result.  Their code is not part of this
    file: what they return is left open.  [_ip_get_path_for_wd] returns the
    path as a string, as the source hands it to a "%s" unchecked. *)
Inductive ext : Type -> Type :=
  | _ip_startup (cb : callback) : ext bool
  | _im_startup (cb : callback) : ext unit
  | _ip_start_watching (sub : sub_ptr) : ext bool
  | _ip_stop_watching (sub : sub_ptr) : ext bool
  | _im_add (sub : sub_ptr) : ext unit
  | _im_rm (sub : sub_ptr) : ext unit
  | _ip_get_path_for_wd (wd : Z) : ext string
  | g_file_new_for_path (path : string) : ext GFile
  | g_object_unref (object : GFile) : ext unit
  | g_file_monitor_source_handle_event
      (fms : Z) (event_type : GFileMonitorEvent)
      (child rename_to : option string) (other : option GFile)
      (event_time : Z) : ext bool
  | g_get_monotonic_time : ext Z
  | g_warning (message : string) : ext unit.

(** One call that was made, with what it returned. *)
Inductive call : Type :=
  | Called {R : Type} (c : ext R) (r : R).

(** What the collaborators return, given the calls made so far. *)
Definition oracle : Type := list call -> forall R : Type, ext R -> R.

(** ** The state *)

Record world : Type :=
  { inotify_lock : bool;              (* G_LOCK_DEFINE (inotify_lock) *)
    initialized : bool;               (* static in _ih_startup *)
    result : bool;                    (* static in _ih_startup *)
    subs : gmap positive inotify_sub; (* the subscriptions of the consumers *)
    trace : list call;                (* the calls made, oldest first *)
    env : oracle }.

Definition with_lock (b : bool) (w : world) : world :=
  {| inotify_lock := b; initialized := initialized w; result := result w;
     subs := subs w; trace := trace w; env := env w |}.

Definition with_initialized (b : bool) (w : world) : world :=
  {| inotify_lock := inotify_lock w; initialized := b; result := result w;
     subs := subs w; trace := trace w; env := env w |}.

Definition with_result (b : bool) (w : world) : world :=
  {| inotify_lock := inotify_lock w; initialized := initialized w; result := b;
     subs := subs w; trace := trace w; env := env w |}.

Definition with_subs (m : gmap positive inotify_sub) (w : world) : world :=
  {| inotify_lock := inotify_lock w; initialized := initialized w;
     result := result w; subs := m; trace := trace w; env := env w |}.

Definition with_trace (t : list call) (w : world) : world :=
  {| inotify_lock := inotify_lock w; initialized := initialized w;
     result := result w; subs := subs w; trace := t; env := env w |}.

(** ** The monad of the C functions *)

Inductive fault : Type :=
  | assertion_failed      (* g_assert aborts the process *)
  | invalid_pointer       (* a subscription that is not allocated *)
  | deadlock.             (* G_LOCK on the lock this thread holds *)

Inductive outcome (A : Type) : Type :=
  | Return (a : A) (w : world)
  | Stop (f : fault) (w : world).
Arguments Return {A} a w.
Arguments Stop {A} f w.

Definition M (A : Type) : Type := world -> outcome A.

Definition ret {A : Type} (a : A) : M A := fun w => Return a w.

Definition bind {A B : Type} (m : M A) (k : A -> M B) : M B := fun w =>
  match m w with
  | Return a w' => k a w'
  | Stop f w' => Stop f w'
  end.

Declare Scope ih_scope.
Delimit Scope ih_scope with ih.
Bind Scope ih_scope with M.
Notation "x ← y ; z" := (bind y (fun x => z))
  (at level 20, y at level 100, z at level 200, only parsing) : ih_scope.
Notation "x ;; z" := (bind x (fun _ => z))
  (at level 100, z at level 200, only parsing, right associativity) : ih_scope.
Local Open Scope ih_scope.

Definition g_assert (b : bool) : M unit := fun w =>
  if b then Return tt w else Stop assertion_failed w.

Definition G_LOCK : M unit := fun w =>
  if inotify_lock w then Stop deadlock w else Return tt (with_lock true w).

Definition G_UNLOCK : M unit := fun w => Return tt (with_lock false w).

(** Calling a collaborator: the oracle answers, the call is recorded. *)
Definition extcall {R : Type} (c : ext R) : M R := fun w =>
  let r := env w (trace w) R c in
  Return r (with_trace (trace w ++ [Called c r]) w).

(** [*sub] *)
Definition load (sub : sub_ptr) : M inotify_sub := fun w =>
  match subs w !! sub with
  | Some s => Return s w
  | None => Stop invalid_pointer w
  end.

(** [*sub = s] *)
Definition store (sub : sub_ptr) (s : inotify_sub) : M unit := fun w =>
  match subs w !! sub with
  | Some _ => Return tt (with_subs (<[sub := s]> (subs w)) w)
  | None => Stop invalid_pointer w
  end.

Definition get_initialized : M bool := fun w => Return (initialized w) w.
Definition get_result : M bool := fun w => Return (result w) w.
Definition set_initialized (b : bool) : M unit := fun w =>
  Return tt (with_initialized b w).
Definition set_result (b : bool) : M unit := fun w =>
  Return tt (with_result b w).

(** [static gboolean ih_debug_enabled = FALSE;] is never assigned. *)
Definition ih_debug_enabled : bool := false.

(** [#define IH_W if (ih_debug_enabled) g_warning] *)
Definition IH_W (message : string) : M unit :=
  if ih_debug_enabled then extcall (g_warning message) else ret tt.

Definition newline : string := String (Ascii.ascii_of_nat 10) EmptyString.

(** ** The functions of the source *)

(** [_ih_startup]: the two statics are fields of the world. *)
Definition _ih_startup : M bool :=
  G_LOCK;;
  init ← get_initialized;
  if init then
    G_UNLOCK;;
    get_result
  else
    r ← extcall (_ip_startup ih_event_callback_fn);
    set_result r;;
    if negb r then
      G_UNLOCK;;
      ret false
    else
      extcall (_im_startup ih_not_missing_callback_fn);;
      IH_W ("started gvfs inotify backend" +:+ newline);;
      set_initialized true;;
      G_UNLOCK;;
      ret true.

(** [_ih_sub_add] *)
Definition _ih_sub_add (sub : sub_ptr) : M bool :=
  G_LOCK;;
  watching ← extcall (_ip_start_watching sub);
  (if negb watching then extcall (_im_add sub) else ret tt);;
  G_UNLOCK;;
  ret true.

(** [_ih_sub_cancel] *)
Definition _ih_sub_cancel (sub : sub_ptr) : M bool :=
  G_LOCK;;
  s ← load sub;
  (if negb (cancelled s) then
     IH_W ("cancelling " +:+ dirname s +:+ newline);;
     store sub (set_cancelled true s);;
     extcall (_im_rm sub);;
     extcall (_ip_stop_watching sub);;
     ret tt
   else ret tt);;
  G_UNLOCK;;
  ret true.

(** [_ih_fullpath_from_event]: the three [g_strdup_printf] formats. *)
Definition _ih_fullpath_from_event
    (event : ik_event_t) (dirname : string) (filename : option string)
  : string :=
  match filename with
  | Some filename => dirname +:+ "/" +:+ filename
  | None =>
      match Ev.name event with
      | Some name => dirname +:+ "/" +:+ name
      | None => dirname +:+ "/"
      end
  end.


(** [event->mask & IN_MOVE] as a condition. *)
Definition is_move (event : ik_event_t) : bool :=
  negb (Z.land (Ev.mask event) IN_MOVE =? 0).

(** [event->pair && event->pair->wd == event->wd] *)
Definition is_rename (event : ik_event_t) : bool :=
  match Ev.pair event with
  | Some paired => Ev.wd paired =? Ev.wd event
  | None => false
  end.

(** [event->pair->name], where the pair is known to be there. *)
Definition pair_name (event : ik_event_t) : option string :=
  match Ev.pair event with
  | Some paired => Ev.name paired
  | None => None
  end.

(** [ih_event_callback].  The caller holds the lock.  [sub->user_data] is
    read where the source passes it to the file monitor. *)
Definition ih_event_callback
    (event : ik_event_t) (sub : sub_ptr) (file_event : bool) : M unit :=
  g_assert (negb file_event);;
  if is_move event then
    if is_rename event then
      s ← load sub;
      extcall (g_file_monitor_source_handle_event
                 (user_data s) G_FILE_MONITOR_EVENT_RENAMED
                 (Ev.name event) (pair_name event) None
                 (Ev.timestamp event));;
      ret tt
    else
      other ← match Ev.pair event with
              | Some paired =>
                  parent_dir ← extcall (_ip_get_path_for_wd (Ev.wd paired));
                  let fullpath := _ih_fullpath_from_event paired parent_dir None in
                  other ← extcall (g_file_new_for_path fullpath);
                  ret (Some other)
              | None => ret None
              end;
      s ← load sub;
      extcall (g_file_monitor_source_handle_event
                 (user_data s) (ih_mask_to_EventFlags (Ev.mask event))
                 (Ev.name event) None other (Ev.timestamp event));;
      match other with
      | Some other => extcall (g_object_unref other)
      | None => ret tt
      end
  else
    s ← load sub;
    extcall (g_file_monitor_source_handle_event
               (user_data s) (ih_mask_to_EventFlags (Ev.mask event))
               (Ev.name event) None None (Ev.timestamp event));;
    ret tt.

(** [ih_not_missing_callback].  C leaves the order in which the arguments
    of the call are evaluated open; the subscription is read first here. *)
Definition ih_not_missing_callback (sub : sub_ptr) : M unit :=
  s ← load sub;
  now ← extcall g_get_monotonic_time;
  extcall (g_file_monitor_source_handle_event
             (user_data s) G_FILE_MONITOR_EVENT_CREATED
             (filename s) None None now);;
  ret tt.

(** ** Reading a trace *)

(** A semantic event, as the file monitor receives it. *)
Record semantic_event : Type :=
  { sink : Z;
    kind : GFileMonitorEvent;
    primary : option string;
    secondary : option string;
    other_ref : option GFile;
    time : Z }.

Definition delivery_of (c : call) : option semantic_event :=
  match c with
  | Called (g_file_monitor_source_handle_event fms k child rename_to other t) _ =>
      Some {| sink := fms; kind := k; primary := child;
              secondary := rename_to; other_ref := other; time := t |}
  | Called _ _ => None
  end.

(** The semantic events delivered along a trace, oldest first. *)
Definition delivered (t : list call) : list semantic_event :=
  omap delivery_of t.

(** The answer of the collaborators to a call made in world [w], and the
    world after the call. *)
Definition answer {R : Type} (c : ext R) (w : world) : R :=
  env w (trace w) R c.

Definition after_call {R : Type} (c : ext R) (w : world) : world :=
  with_trace (trace w ++ [Called c (answer c w)]) w.

(** The subscription at [sub] with its cancelled flag set to [b]. *)
Definition flag_sub (sub : sub_ptr) (b : bool) (w : world) : world :=
  with_subs (alter (set_cancelled b) sub (subs w)) w.

(** [n] calls in a row, with their results; a fault ends the row. *)
Fixpoint repeat_call {A : Type} (n : nat) (m : M A) : M (list A) :=
  match n with
  | O => ret []
  | S n => a ← m; l ← repeat_call n m; ret (a :: l)
  end.

(** How often a trace starts the missing registry, and how often it starts
    the watch directory with success. *)
Definition starts_missing (c : call) : bool :=
  match c with
  | Called (_im_startup _) _ => true
  | Called _ _ => false
  end.

Definition starts_paths (c : call) : bool :=
  match c with
  | Called (_ip_startup _) r => r
  | Called _ _ => false
  end.

Definition count_calls (p : call -> bool) (t : list call) : nat :=
  length (filter (fun c => Is_true (p c)) t).

(** What holds of the statics and of the trace between two start-ups: with
    the flag clear nothing has been started; with the flag set the watch
    directory and the missing registry have been started once each, and the
    result that is kept is success. *)
Definition startup_inv (w : world) : Prop :=
  inotify_lock w = false
  /\ if initialized w
     then result w = true
          /\ count_calls starts_paths (trace w) = 1%nat
          /\ count_calls starts_missing (trace w) = 1%nat
     else count_calls starts_paths (trace w) = 0%nat
          /\ count_calls starts_missing (trace w) = 0%nat.

(** An outcome with its world changed by [f]. *)
Definition on_world {A : Type} (f : world -> world) (o : outcome A)
  : outcome A :=
  match o with
  | Return a w => Return a (f w)
  | Stop e w => Stop e (f w)
  end.

(** ** Reading outcomes *)

(** The world a run ends in, whether it returns or stops. *)
Definition outcome_world {A : Type} (o : outcome A) : world :=
  match o with
  | Return _ w => w
  | Stop _ w => w
  end.

(** [m] takes every world to a world related to it by [R]. *)
Definition preserves {A : Type} (R : world -> world -> Prop) (m : M A) : Prop :=
  forall w, R w (outcome_world (m w)).

(** The calls into the watch directory and the missing registry that
    start them and that add or drop a subscription. *)
Definition registry_call (c : call) : bool :=
  match c with
  | Called (_ip_startup _) _ => true
  | Called (_im_startup _) _ => true
  | Called (_ip_start_watching _) _ => true
  | Called (_ip_stop_watching _) _ => true
  | Called (_im_add _) _ => true
  | Called (_im_rm _) _ => true
  | Called _ _ => false
  end.

(** The calls that serve the delivery of an event. *)
Definition delivery_call (c : call) : bool :=
  match c with
  | Called (_ip_get_path_for_wd _) _ => true
  | Called (g_file_new_for_path _) _ => true
  | Called (g_object_unref _) _ => true
  | Called (g_file_monitor_source_handle_event _ _ _ _ _ _) _ => true
  | Called g_get_monotonic_time _ => true
  | Called _ _ => false
  end.

(** The trace of [w'] is the trace of [w] and then calls that satisfy [P]. *)
Definition grows_by (P : call -> bool) (w w' : world) : Prop :=
  exists t, trace w' = trace w ++ t /\ Forall (fun c => P c = true) t.

(** [w'] has the lock, the statics, the subscriptions and the collaborators
    of [w]. *)
Definition same_state (w w' : world) : Prop :=
  inotify_lock w' = inotify_lock w
  /\ initialized w' = initialized w
  /\ result w' = result w
  /\ subs w' = subs w
  /\ env w' = env w.

(** From [w] to [w'] no subscription is allocated, freed or changed, but
    for cancelled flags that are set. *)
Definition flags_only_set (w w' : world) : Prop :=
  forall sub,
    subs w' !! sub = subs w !! sub
    \/ exists s, subs w !! sub = Some s
                 /\ subs w' !! sub = Some (set_cancelled true s).

(** ** Scenarios *)

Module Scenario.

(** Collaborators that always succeed: every watch directory is
    "/tmp/other", every new object is at address 1. *)
Definition env_ok : oracle := fun _ R c =>
  match c in ext R return R with
  | _ip_startup _ => true
  | _im_startup _ => tt
  | _ip_start_watching _ => true
  | _ip_stop_watching _ => true
  | _im_add _ => tt
  | _im_rm _ => tt
  | _ip_get_path_for_wd _ => "/tmp/other"%string
  | g_file_new_for_path _ => 1%positive
  | g_object_unref _ => tt
  | g_file_monitor_source_handle_event _ _ _ _ _ _ => true
  | g_get_monotonic_time => 0
  | g_warning _ => tt
  end.

(** Collaborators whose watch directory fails to start at the first
    attempt and starts at every later one. *)
Definition env_retry : oracle := fun t R c =>
  match c in ext R return R with
  | _ip_startup _ => match t with [] => false | _ :: _ => true end
  | c => env_ok t _ c
  end.

Definition sub0 : inotify_sub :=
  {| dirname := "/tmp/watch"; filename := None;
     cancelled := false; user_data := 42 |}.

(** A process before the first call, with one subscription at address 1. *)
Definition world0 (e : oracle) : world :=
  {| inotify_lock := false; initialized := false; result := false;
     subs := {[ 1%positive := sub0 ]}; trace := []; env := e |}.

Definition w_ok : world := world0 env_ok.

Definition w_retry : world := world0 env_retry.

Definition moved_to_b (wd : Z) : ik_event_t :=
  Ev.Build wd IN_MOVED_TO (Some "b"%string) None 1000.

(** A rename inside the directory of watch 7. *)
Definition ev_rename : ik_event_t :=
  Ev.Build 7 IN_MOVED_FROM (Some "a"%string) (Some (moved_to_b 7)) 1000.

(** A move from the directory of watch 7 to that of watch 8. *)
Definition ev_move_across : ik_event_t :=
  Ev.Build 7 IN_MOVED_FROM (Some "a"%string) (Some (moved_to_b 8)) 1000.

(** A move out of the directory of watch 7, with no pair. *)
Definition ev_move_out : ik_event_t :=
  Ev.Build 7 IN_MOVED_FROM (Some "a"%string) None 1000.

Definition ev_create : ik_event_t :=
  Ev.Build 7 IN_CREATE (Some "foo.txt"%string) None 1000.

End Scenario.

(** * Properties *)

(** ** The bitmask *)

Section Mask.

Implicit Types mask : Z.

Lemma uint32_lnot_isdir : uint32 (Z.lnot IN_ISDIR) = 0xBFFFFFFF.
Proof. reflexivity. Qed.

(** Clearing the flag is clearing bit 30. *)
Lemma clear_isdir_testbit mask n :
  0 <= n ->
  Z.testbit (clear_isdir mask) n
  = Z.testbit mask n && (n <? 32) && negb (n =? 30).
Proof.
  intros Hn. unfold clear_isdir. rewrite uint32_lnot_isdir, Z.land_spec.
  replace 0xBFFFFFFF with (Z.ldiff (Z.ones 32) (2 ^ 30)) by reflexivity.
  rewrite Z.ldiff_spec, Z.pow2_bits_eqb by lia.
  rewrite Z.testbit_ones_nonneg by lia.
  rewrite (Z.eqb_sym 30 n). now rewrite andb_assoc.
Qed.

Lemma clear_isdir_idem mask : clear_isdir (clear_isdir mask) = clear_isdir mask.
Proof.
  apply Z.bits_inj'. intros n Hn. rewrite !clear_isdir_testbit by assumption.
  destruct (Z.testbit mask n), (n <? 32), (n =? 30); reflexivity.
Qed.

Lemma clear_isdir_lor_isdir mask :
  clear_isdir (Z.lor mask IN_ISDIR) = clear_isdir mask.
Proof.
  apply Z.bits_inj'. intros n Hn. rewrite !clear_isdir_testbit by assumption.
  rewrite Z.lor_spec. change IN_ISDIR with (2 ^ 30).
  rewrite Z.pow2_bits_eqb by lia. rewrite (Z.eqb_sym 30 n).
  destruct (Z.testbit mask n), (n <? 32), (n =? 30); reflexivity.
Qed.

(** On a 32-bit mask, clearing the flag leaves the mask or takes
    [IN_ISDIR] off it. *)
Lemma clear_isdir_32 mask :
  0 <= mask < 2 ^ 32 ->
  clear_isdir mask
  = if Z.testbit mask 30 then mask - IN_ISDIR else mask.
Proof.
  intros Hm.
  assert (Hld : clear_isdir mask = Z.ldiff mask (2 ^ 30)).
  { apply Z.bits_inj'. intros n Hn.
    rewrite clear_isdir_testbit, Z.ldiff_spec, Z.pow2_bits_eqb by lia.
    rewrite (Z.eqb_sym 30 n). destruct (Z.ltb_spec n 32) as [Hlt | Hge].
    - now rewrite andb_true_r.
    - replace (Z.testbit mask n) with false; [reflexivity |].
      symmetry. apply (Z.bits_above_log2 mask n); [lia |].
      destruct (Z.eq_dec mask 0) as [-> | Hnz]; [simpl; lia |].
      apply Z.log2_lt_pow2; [lia |].
      apply Z.lt_le_trans with (2 ^ 32); [lia |].
      apply Z.pow_le_mono_r; lia. }
  rewrite Hld. destruct (Z.testbit mask 30) eqn:Hbit.
  - change IN_ISDIR with (2 ^ 30). symmetry. apply Z.sub_nocarry_ldiff.
    apply Z.bits_inj'. intros n Hn.
    rewrite Z.ldiff_spec, Z.pow2_bits_eqb, Z.bits_0 by lia.
    destruct (Z.eqb_spec 30 n) as [<- | Hne]; [now rewrite Hbit | reflexivity].
  - apply Z.bits_inj'. intros n Hn.
    rewrite Z.ldiff_spec, Z.pow2_bits_eqb by lia.
    destruct (Z.eqb_spec 30 n) as [<- | Hne];
      [now rewrite Hbit | now rewrite andb_true_r].
Qed.

(** The source's [switch] is a look-up in a table of ten rows. *)
Lemma ih_mask_to_EventFlags_table mask :
  ih_mask_to_EventFlags mask
  = table_kind (spec_table ++ deleted_rows) (clear_isdir mask).
Proof.
  unfold ih_mask_to_EventFlags. cbv zeta. generalize (clear_isdir mask) as m.
  intros m. cbn [spec_table deleted_rows app table_kind].
  repeat match goal with
         | |- context [?a =? ?b] =>
             is_var a; destruct (Z.eqb_spec a b) as [-> | ?]; cbn; try reflexivity
         end.
Qed.


(** The masks that the table of ten rows does not hold are the masks of
    the [default] branch. *)
Lemma table_kind_default (table : list (Z * GFileMonitorEvent)) mask :
  mask ∉ table.*1 -> table_kind table mask = G_FILE_MONITOR_EVENT_NONE.
Proof.
  induction table as [| [raw k] rows IH]; intros Hnin; [reflexivity |].
  cbn [table_kind]. destruct (Z.eqb_spec mask raw) as [-> | Hne].
  - exfalso. apply Hnin. cbn. left.
  - apply IH. intros Hin. apply Hnin. cbn. now right.
Qed.

Lemma table_kind_row (table : list (Z * GFileMonitorEvent)) raw k :
  NoDup table.*1 -> (raw, k) ∈ table -> table_kind table raw = k.
Proof.
  induction table as [| [raw' k'] rows IH]; intros Hnd Hin.
  - inversion Hin.
  - cbn [table_kind]. cbn in Hnd. apply NoDup_cons in Hnd as [Hfresh Hnd].
    apply elem_of_cons in Hin as [Heq | Hin].
    + injection Heq as -> ->. now rewrite Z.eqb_refl.
    + destruct (Z.eqb_spec raw raw') as [-> | Hne]; [| now apply IH].
      exfalso. apply Hfresh. apply list_elem_of_fmap. now exists (raw', k).
Qed.

(** C3, as the specification words it, fails: [IN_DELETE] has no row in
    the table of seven rows, so the specification's mapping ignores it, and
    the source translates it to "deleted". *)
Lemma spec_table_misses_delete :
  0 <= IN_DELETE < 2 ^ 32
  /\ spec_mask_to_kind IN_DELETE = G_FILE_MONITOR_EVENT_NONE
  /\ ih_mask_to_EventFlags IN_DELETE = G_FILE_MONITOR_EVENT_DELETED
  /\ ~ (forall mask, 0 <= mask < 2 ^ 32 ->
         ih_mask_to_EventFlags mask = spec_mask_to_kind mask).
Proof.
  repeat split; try reflexivity; try (unfold IN_DELETE; lia).
  intros H. specialize (H IN_DELETE). discriminate H. unfold IN_DELETE; lia.
Qed.

(** C3, amended: for every 32-bit mask the mapping takes the is-directory
    flag off and looks the rest up in the table of the seven rows of the
    specification and the three rows move-self, delete and delete-self, which
    give "deleted"; a mask with the flag set gives what it gives without;
    open, close-no-write, access, queue-overflow, ignored and every mask with
    no row give the value -1. *)
Theorem mask_to_kind_is_table_lookup mask :
  0 <= mask < 2 ^ 32 ->
  let stripped := if Z.testbit mask 30 then mask - IN_ISDIR else mask in
  clear_isdir mask = stripped
  /\ ih_mask_to_EventFlags mask
     = table_kind (spec_table ++ deleted_rows) stripped
  /\ ih_mask_to_EventFlags (Z.lor mask IN_ISDIR) = ih_mask_to_EventFlags mask
  /\ (forall raw k, (raw, k) ∈ spec_table ++ deleted_rows ->
        stripped = raw -> ih_mask_to_EventFlags mask = k)
  /\ (stripped ∈ ignored_raw_kinds ->
        ih_mask_to_EventFlags mask = G_FILE_MONITOR_EVENT_NONE)
  /\ (stripped ∉ (spec_table ++ deleted_rows).*1 ->
        ih_mask_to_EventFlags mask = G_FILE_MONITOR_EVENT_NONE).
Proof.
  intros Hm stripped.
  assert (Hs : clear_isdir mask = stripped) by now apply clear_isdir_32.
  assert (Hnd : NoDup (spec_table ++ deleted_rows).*1).
  { apply (bool_decide_unpack _). vm_compute. reflexivity. }
  split; [exact Hs |].
  rewrite !ih_mask_to_EventFlags_table, clear_isdir_lor_isdir, Hs.
  repeat split.
  - intros raw k Hin ->. now apply table_kind_row.
  - intros Hin. apply table_kind_default.
    assert (Hd : Forall (fun raw => raw ∉ (spec_table ++ deleted_rows).*1)
                   ignored_raw_kinds).
    { apply (bool_decide_unpack _). vm_compute. reflexivity. }
    rewrite Forall_forall in Hd. now apply Hd.
  - apply table_kind_default.
Qed.

Lemma mask_to_kind_is_table_lookup_witness :
  0 <= Z.lor IN_MODIFY IN_ISDIR < 2 ^ 32
  /\ ih_mask_to_EventFlags (Z.lor IN_MODIFY IN_ISDIR)
     = G_FILE_MONITOR_EVENT_CHANGED.
Proof.
  assert (Hm : 0 <= Z.lor IN_MODIFY IN_ISDIR < 2 ^ 32) by (vm_compute; split; congruence).
  split; [exact Hm |].
  destruct (mask_to_kind_is_table_lookup (Z.lor IN_MODIFY IN_ISDIR) Hm)
    as (_ & Hk & _).
  rewrite Hk. reflexivity.
Defined.

(** C4, as the specification words it, fails: the source translates
    unmount to "unmounted", not to "deleted". *)
Lemma unmount_is_not_deleted :
  ih_mask_to_EventFlags IN_UNMOUNT = G_FILE_MONITOR_EVENT_UNMOUNTED
  /\ ih_mask_to_EventFlags IN_UNMOUNT <> G_FILE_MONITOR_EVENT_DELETED.
Proof. split; [reflexivity | discriminate]. Qed.

(** C4, amended: the mapping sends the three raw kinds delete, delete-self
    and move-self, with or without the is-directory flag, to the one kind
    "deleted", and nothing else; unmount goes to "unmounted". *)
Theorem deleted_raw_kinds mask :
  (ih_mask_to_EventFlags mask = G_FILE_MONITOR_EVENT_DELETED
   <-> clear_isdir mask ∈ [IN_DELETE; IN_DELETE_SELF; IN_MOVE_SELF])
  /\ ih_mask_to_EventFlags IN_DELETE = G_FILE_MONITOR_EVENT_DELETED
  /\ ih_mask_to_EventFlags IN_DELETE_SELF = G_FILE_MONITOR_EVENT_DELETED
  /\ ih_mask_to_EventFlags IN_MOVE_SELF = G_FILE_MONITOR_EVENT_DELETED
  /\ ih_mask_to_EventFlags (Z.lor IN_DELETE IN_ISDIR)
     = G_FILE_MONITOR_EVENT_DELETED
  /\ ih_mask_to_EventFlags (Z.lor IN_DELETE_SELF IN_ISDIR)
     = G_FILE_MONITOR_EVENT_DELETED
  /\ ih_mask_to_EventFlags (Z.lor IN_MOVE_SELF IN_ISDIR)
     = G_FILE_MONITOR_EVENT_DELETED
  /\ ih_mask_to_EventFlags IN_UNMOUNT = G_FILE_MONITOR_EVENT_UNMOUNTED
  /\ ih_mask_to_EventFlags (Z.lor IN_UNMOUNT IN_ISDIR)
     = G_FILE_MONITOR_EVENT_UNMOUNTED.
Proof.
  split; [| repeat split].
  rewrite ih_mask_to_EventFlags_table. generalize (clear_isdir mask) as m.
  intros m. rewrite !elem_of_cons, elem_of_nil.
  cbn [spec_table deleted_rows app table_kind].
  repeat match goal with
         | |- context [m =? ?b] => destruct (Z.eqb_spec m b) as [-> | ?]
         end;
    split; intros H; try discriminate H; try reflexivity; try tauto;
    exfalso; (discriminate H || (decompose [or] H; try contradiction; discriminate)).
Qed.

End Mask.

(** ** Full paths *)

(** C5: the full path is the directory, a separator, and the override when
    there is one, else the name of the event when it has one, else nothing. *)
Theorem fullpath_from_event (dir : string) :
  (forall event override,
      _ih_fullpath_from_event event dir (Some override)
      = dir +:+ "/" +:+ override)
  /\ (forall wd mask name paired timestamp,
      _ih_fullpath_from_event
        (Ev.Build wd mask (Some name) paired timestamp) dir None
      = dir +:+ "/" +:+ name)
  /\ (forall wd mask paired timestamp,
      _ih_fullpath_from_event (Ev.Build wd mask None paired timestamp) dir None
      = dir +:+ "/").
Proof. repeat split. Qed.

Example fullpath_create :
  _ih_fullpath_from_event Scenario.ev_create "/tmp/watch" None
  = "/tmp/watch/foo.txt"%string.
Proof. reflexivity. Qed.

(** ** Running the monad *)

Lemma extcall_run {R : Type} (c : ext R) w :
  extcall c w = Return (answer c w) (after_call c w).
Proof. reflexivity. Qed.

Lemma load_run sub s w :
  subs w !! sub = Some s -> load sub w = Return s w.
Proof. unfold load. now intros ->. Qed.

Lemma delivered_app (t1 t2 : list call) :
  delivered (t1 ++ t2) = delivered t1 ++ delivered t2.
Proof. apply omap_app. Qed.



(** ** Translation of move events *)

Section Translation.

Variables (w : world) (event : ik_event_t) (sub : sub_ptr) (s : inotify_sub).
Hypothesis Hmove : Z.land (Ev.mask event) IN_MOVE <> 0.
Hypothesis Hsub : subs w !! sub = Some s.

Lemma is_move_true : is_move event = true.
Proof. unfold is_move. now destruct (Z.eqb_spec (Z.land (Ev.mask event) IN_MOVE) 0). Qed.

(** C1: a move event whose pair is on the same watch is delivered as one
    "renamed" event, from the name of the event to the name of the pair, with
    no other file. *)
Theorem rename_delivers_renamed (paired : ik_event_t) :
  Ev.pair event = Some paired ->
  Ev.wd paired = Ev.wd event ->
  let renamed :=
    g_file_monitor_source_handle_event
      (user_data s) G_FILE_MONITOR_EVENT_RENAMED
      (Ev.name event) (Ev.name paired) None (Ev.timestamp event) in
  ih_event_callback event sub false w = Return tt (after_call renamed w)
  /\ delivered (trace (after_call renamed w))
     = delivered (trace w)
       ++ [ {| sink := user_data s; kind := G_FILE_MONITOR_EVENT_RENAMED;
               primary := Ev.name event; secondary := Ev.name paired;
               other_ref := None; time := Ev.timestamp event |} ].
Proof.
  intros Hpair Hwd renamed. split.
  - unfold ih_event_callback, bind at 1. cbn [g_assert negb].
    rewrite is_move_true. unfold is_rename, pair_name. rewrite Hpair, Hwd, Z.eqb_refl.
    unfold bind at 1. rewrite (load_run _ _ _ Hsub).
    unfold bind, ret. now rewrite extcall_run.
  - cbn [after_call trace with_trace]. now rewrite delivered_app.
Qed.



End Translation.

Lemma rename_delivers_renamed_witness :
  Z.land (Ev.mask Scenario.ev_rename) IN_MOVE <> 0
  /\ subs Scenario.w_ok !! 1%positive = Some Scenario.sub0
  /\ Ev.pair Scenario.ev_rename = Some (Scenario.moved_to_b 7)
  /\ Ev.wd (Scenario.moved_to_b 7) = Ev.wd Scenario.ev_rename
  /\ exists w',
       ih_event_callback Scenario.ev_rename 1%positive false Scenario.w_ok = Return tt w'
       /\ delivered (trace w')
          = [ {| sink := 42; kind := G_FILE_MONITOR_EVENT_RENAMED;
                 primary := Some "a"%string; secondary := Some "b"%string;
                 other_ref := None; time := 1000 |} ].
Proof.
  assert (Hmove : Z.land (Ev.mask Scenario.ev_rename) IN_MOVE <> 0) by discriminate.
  assert (Hsub : subs Scenario.w_ok !! 1%positive = Some Scenario.sub0) by reflexivity.
  assert (Hpair : Ev.pair Scenario.ev_rename = Some (Scenario.moved_to_b 7))
    by reflexivity.
  assert (Hwd : Ev.wd (Scenario.moved_to_b 7) = Ev.wd Scenario.ev_rename)
    by reflexivity.
  repeat (split; [assumption |]).
  destruct (rename_delivers_renamed Scenario.w_ok Scenario.ev_rename 1%positive
              Scenario.sub0 Hmove Hsub (Scenario.moved_to_b 7) Hpair Hwd)
    as [Hrun Hdel].
  eexists. split; [exact Hrun | exact Hdel].
Defined.


Example move_out_unpaired :
  exists w',
    ih_event_callback Scenario.ev_move_out 1%positive false
      Scenario.w_ok = Return tt w'
    /\ delivered (trace w')
       = [ {| sink := 42; kind := G_FILE_MONITOR_EVENT_MOVED_OUT;
              primary := Some "a"%string; secondary := None;
              other_ref := None; time := 1000 |} ].
Proof. eexists. split; reflexivity. Qed.

(** An event that is no move is delivered under the name it carries: the
    callback does not put the directory of the subscription before it. *)
Example create_event :
  exists w',
    ih_event_callback Scenario.ev_create 1%positive false
      Scenario.w_ok = Return tt w'
    /\ delivered (trace w')
       = [ {| sink := 42; kind := G_FILE_MONITOR_EVENT_CREATED;
              primary := Some "foo.txt"%string; secondary := None;
              other_ref := None; time := 1000 |} ].
Proof. eexists. split; reflexivity. Qed.

(** ** The assertion *)

(** What a run of the callback with [file_event] clear can end in. *)
Lemma callback_outcomes (event : ik_event_t) (sub : sub_ptr) (w : world) :
  (exists w', ih_event_callback event sub false w = Return tt w')
  \/ (exists w', ih_event_callback event sub false w = Stop invalid_pointer w').
Proof.
  unfold ih_event_callback, bind, ret, g_assert, load, extcall. cbn [negb].
  destruct (is_move event); [destruct (is_rename event) |].
  - destruct (subs w !! sub); eauto.
  - destruct (Ev.pair event) as [paired |]; cbn [subs with_trace];
      destruct (subs w !! sub); eauto.
    match goal with
    | |- context [Return (env ?e ?t unit ?c) _] => destruct (env e t unit c)
    end.
    eauto.
  - destruct (subs w !! sub); eauto.
Qed.

(** C9: with [file_event] set the callback stops at its assertion, before
    it reads the event or the subscription and before any call: the world,
    and so the trace, is the one it was called in, and nothing is delivered.
    The assertion is on [file_event] alone: with [file_event] clear no run
    ends in an assertion failure. *)
Theorem file_event_fails_assertion
    (event : ik_event_t) (sub : sub_ptr) (w : world) :
  ih_event_callback event sub true w = Stop assertion_failed w
  /\ (forall file_event w',
        ih_event_callback event sub file_event w = Stop assertion_failed w'
        <-> file_event = true /\ w' = w).
Proof.
  assert (Hset : ih_event_callback event sub true w = Stop assertion_failed w)
    by reflexivity.
  split; [exact Hset |]. intros file_event w'. split.
  - destruct file_event; intros Hrun.
    + rewrite Hset in Hrun. now injection Hrun as <-.
    + destruct (callback_outcomes event sub w) as [[w1 H1] | [w1 H1]];
        rewrite H1 in Hrun; discriminate Hrun.
  - now intros [-> ->].
Qed.

(** ** Cancelling *)

Lemma unlock_lock w :
  inotify_lock w = false -> with_lock false (with_lock true w) = w.
Proof. destruct w. cbn. now intros ->. Qed.

(** Cancelling a subscription that is cancelled changes nothing. *)
Lemma cancel_cancelled w sub s :
  inotify_lock w = false -> subs w !! sub = Some s -> cancelled s = true ->
  _ih_sub_cancel sub w = Return true w.
Proof.
  intros Hlock Hsub Hc. unfold _ih_sub_cancel, bind, G_LOCK, load.
  rewrite Hlock. cbn [subs with_lock]. rewrite Hsub, Hc.
  cbn [negb ret G_UNLOCK]. now rewrite unlock_lock.
Qed.

(** Cancelling a subscription that is not cancelled. *)
Lemma cancel_first w sub s :
  inotify_lock w = false -> subs w !! sub = Some s -> cancelled s = false ->
  _ih_sub_cancel sub w
  = Return true
      {| inotify_lock := false; initialized := initialized w;
         result := result w;
         subs := <[sub := set_cancelled true s]> (subs w);
         trace := trace w
                  ++ [ Called (_im_rm sub) tt;
                       Called (_ip_stop_watching sub)
                         (env w (trace w ++ [Called (_im_rm sub) tt]) bool
                            (_ip_stop_watching sub)) ];
         env := env w |}.
Proof.
  intros Hlock Hsub Hc. unfold _ih_sub_cancel, bind, G_LOCK, load, store.
  rewrite Hlock. cbn [subs with_lock]. rewrite Hsub, Hc.
  cbn [negb IH_W ih_debug_enabled ret]. cbn [subs with_lock]. rewrite Hsub.
  rewrite !extcall_run. cbn [G_UNLOCK]. f_equal.
  unfold after_call, answer. cbn. rewrite <- app_assoc. cbn [app].
  now destruct (env w (trace w) unit (_im_rm sub)).
Qed.

Lemma repeat_call_noop {A : Type} (m : M A) (a : A) w :
  m w = Return a w ->
  forall n, repeat_call n m w = Return (replicate n a) w.
Proof.
  intros Hm n. induction n as [| n IH]; [reflexivity |].
  cbn [repeat_call]. unfold bind at 1. rewrite Hm.
  unfold bind at 1. now rewrite IH.
Qed.

Section Cancel.

Variables (w : world) (sub : sub_ptr) (s : inotify_sub).
Hypothesis Hlock : inotify_lock w = false.
Hypothesis Hsub : subs w !! sub = Some s.

(** C6: the first cancel sets the flag of the subscription and asks the
    missing registry and then the watch directory to drop it; a cancel of
    the subscription after that returns success and leaves the world,
    trace included, as it is; so two cancels, or more, come to one. *)
Theorem cancel_twice_is_cancel_once :
  cancelled s = false ->
  let w1 :=
    {| inotify_lock := false; initialized := initialized w;
       result := result w;
       subs := <[sub := set_cancelled true s]> (subs w);
       trace := trace w
                ++ [ Called (_im_rm sub) tt;
                     Called (_ip_stop_watching sub)
                       (env w (trace w ++ [Called (_im_rm sub) tt]) bool
                          (_ip_stop_watching sub)) ];
       env := env w |} in
  _ih_sub_cancel sub w = Return true w1
  /\ (cancelled <$> subs w1 !! sub) = Some true
  /\ _ih_sub_cancel sub w1 = Return true w1
  /\ repeat_call 2 (_ih_sub_cancel sub) w = Return [true; true] w1
  /\ forall n, repeat_call n (_ih_sub_cancel sub) w1
               = Return (replicate n true) w1.
Proof.
  intros Hc w1.
  assert (H1 : _ih_sub_cancel sub w = Return true w1) by now apply cancel_first.
  assert (Hs1 : subs w1 !! sub = Some (set_cancelled true s))
    by apply lookup_insert_eq.
  assert (H2 : _ih_sub_cancel sub w1 = Return true w1)
    by now apply (cancel_cancelled w1 sub (set_cancelled true s)).
  split; [exact H1 |]. split; [now rewrite Hs1 |]. split; [exact H2 |].
  split; [| now apply repeat_call_noop].
  cbn [repeat_call]. unfold bind at 1. rewrite H1.
  unfold bind at 1. unfold bind at 1. rewrite H2. reflexivity.
Qed.

End Cancel.

Lemma cancel_twice_is_cancel_once_witness :
  inotify_lock Scenario.w_ok = false
  /\ subs Scenario.w_ok !! 1%positive = Some Scenario.sub0
  /\ cancelled Scenario.sub0 = false
  /\ exists w1,
       repeat_call 2 (_ih_sub_cancel 1%positive) Scenario.w_ok = Return [true; true] w1
       /\ trace w1 = [ Called (_im_rm 1%positive) tt;
                       Called (_ip_stop_watching 1%positive) true ].
Proof.
  assert (Hlock : inotify_lock Scenario.w_ok = false) by reflexivity.
  assert (Hsub : subs Scenario.w_ok !! 1%positive = Some Scenario.sub0) by reflexivity.
  assert (Hc : cancelled Scenario.sub0 = false) by reflexivity.
  repeat (split; [assumption |]).
  destruct (cancel_twice_is_cancel_once Scenario.w_ok 1%positive Scenario.sub0
              Hlock Hsub Hc) as (_ & _ & _ & Htwice & _).
  eexists. split; [exact Htwice | reflexivity].
Defined.

(** ** Cancelling and delivery *)

Lemma extcall_flag_sub {R : Type} (c : ext R) sub b w :
  extcall c (flag_sub sub b w)
  = Return (answer c w) (flag_sub sub b (after_call c w)).
Proof. reflexivity. Qed.

Lemma load_flag_sub sub b w s :
  subs w !! sub = Some s ->
  load sub (flag_sub sub b w) = Return (set_cancelled b s) (flag_sub sub b w).
Proof.
  intros Hsub. unfold load. cbn [flag_sub subs with_subs].
  now rewrite lookup_alter_eq, Hsub.
Qed.

(** The callback runs the same way whatever the cancelled flag of the
    subscription is. *)
Lemma callback_flag_sub w event sub s file_event b :
  subs w !! sub = Some s ->
  ih_event_callback event sub file_event (flag_sub sub b w)
  = on_world (flag_sub sub b) (ih_event_callback event sub file_event w).
Proof.
  intros Hsub. unfold ih_event_callback.
  destruct file_event; [reflexivity |].
  unfold bind, ret, g_assert. cbn [negb].
  destruct (is_move event); [destruct (is_rename event) |].
  - rewrite (load_flag_sub _ _ _ _ Hsub), (load_run _ _ _ Hsub). reflexivity.
  - destruct (Ev.pair event) as [paired |].
    + rewrite !extcall_flag_sub, !extcall_run.
      erewrite load_flag_sub, load_run by exact Hsub. reflexivity.
    + rewrite (load_flag_sub _ _ _ _ Hsub), (load_run _ _ _ Hsub). reflexivity.
  - rewrite (load_flag_sub _ _ _ _ Hsub), (load_run _ _ _ Hsub). reflexivity.
Qed.

(** Called with [file_event] clear for a subscription that is allocated,
    the callback delivers one event, to the monitor of the subscription. *)
Lemma callback_delivers_one w event sub s :
  subs w !! sub = Some s ->
  exists w' e,
    ih_event_callback event sub false w = Return tt w'
    /\ delivered (trace w') = delivered (trace w) ++ [e]
    /\ sink e = user_data s
    /\ primary e = Ev.name event
    /\ time e = Ev.timestamp event.
Proof.
  intros Hsub. unfold ih_event_callback, bind at 1. cbn [g_assert negb].
  destruct (is_move event); [destruct (is_rename event) |].
  - unfold bind, ret. rewrite (load_run _ _ _ Hsub), extcall_run.
    eexists _, _. split; [reflexivity |].
    cbn [after_call trace with_trace]. rewrite delivered_app.
    repeat split.
  - destruct (Ev.pair event) as [paired |].
    + unfold bind, ret. rewrite !extcall_run.
      erewrite load_run by exact Hsub. rewrite !extcall_run.
      destruct (answer (g_object_unref _) _).
      eexists _, _. split; [reflexivity |].
      cbn [after_call trace with_trace]. rewrite !delivered_app.
      rewrite <- !app_assoc. repeat split.
    + unfold bind, ret. rewrite (load_run _ _ _ Hsub), extcall_run.
      eexists _, _. split; [reflexivity |].
      cbn [after_call trace with_trace]. rewrite delivered_app.
      repeat split.
  - unfold bind, ret. rewrite (load_run _ _ _ Hsub), extcall_run.
    eexists _, _. split; [reflexivity |].
    cbn [after_call trace with_trace]. rewrite delivered_app.
    repeat split.
Qed.

(** C7, as the specification words it, fails: after a cancel has returned
    and set the flag of the subscription, the callback, called for that
    subscription, delivers an event to its monitor. *)
Lemma cancelled_subscription_gets_event :
  exists w1 w2,
    _ih_sub_cancel 1%positive Scenario.w_ok = Return true w1
    /\ (cancelled <$> subs w1 !! 1%positive) = Some true
    /\ ih_event_callback Scenario.ev_create 1%positive false w1 = Return tt w2
    /\ delivered (trace w1) = []
    /\ delivered (trace w2)
       = [ {| sink := user_data Scenario.sub0;
              kind := G_FILE_MONITOR_EVENT_CREATED;
              primary := Some "foo.txt"%string; secondary := None;
              other_ref := None; time := 1000 |} ].
Proof.
  eexists _, _. split; [reflexivity |]. split; [reflexivity |].
  split; [reflexivity |]. split; reflexivity.
Qed.

(** C7, amended: a cancel sets the flag of the subscription and, the first
    time, asks the missing registry and the watch directory to drop it.  The
    callback does not read the flag: it runs the same way whatever the flag
    is, and called after the cancel for the cancelled subscription it
    delivers one event to the monitor of that subscription.  That no event
    arrives after a cancel is left to the collaborators, which are asked to
    drop the subscription. *)
Theorem callback_does_not_read_cancelled w event sub s :
  inotify_lock w = false ->
  subs w !! sub = Some s ->
  (forall b,
      ih_event_callback event sub false (flag_sub sub b w)
      = on_world (flag_sub sub b) (ih_event_callback event sub false w))
  /\ exists w1,
      _ih_sub_cancel sub w = Return true w1
      /\ (cancelled <$> subs w1 !! sub) = Some true
      /\ (cancelled s = false ->
          exists stopped,
            trace w1 = trace w ++ [ Called (_im_rm sub) tt;
                                    Called (_ip_stop_watching sub) stopped ])
      /\ exists w2 e,
          ih_event_callback event sub false w1 = Return tt w2
          /\ delivered (trace w2) = delivered (trace w1) ++ [e]
          /\ sink e = user_data s
          /\ primary e = Ev.name event
          /\ time e = Ev.timestamp event.
Proof.
  intros Hlock Hsub. split; [intros b; now apply (callback_flag_sub w event sub s) |].
  destruct (cancelled s) eqn:Hc.
  - exists w. split; [now apply (cancel_cancelled w sub s) |].
    split; [now rewrite Hsub; cbn; rewrite Hc |].
    split; [discriminate |]. now apply callback_delivers_one.
  - pose proof (cancel_first w sub s Hlock Hsub Hc) as Hfirst.
    match type of Hfirst with _ = Return true ?W => set (w1 := W) in * end.
    assert (Hsub1 : subs w1 !! sub = Some (set_cancelled true s))
      by apply lookup_insert_eq.
    exists w1. split; [exact Hfirst |]. split; [now rewrite Hsub1 |].
    split; [intros _; eexists; reflexivity |].
    exact (callback_delivers_one w1 event sub _ Hsub1).
Qed.

Lemma callback_does_not_read_cancelled_witness :
  inotify_lock Scenario.w_ok = false
  /\ subs Scenario.w_ok !! 1%positive = Some Scenario.sub0
  /\ ih_event_callback Scenario.ev_create 1%positive false
       (flag_sub 1%positive true Scenario.w_ok)
     = on_world (flag_sub 1%positive true)
         (ih_event_callback Scenario.ev_create 1%positive false Scenario.w_ok).
Proof.
  assert (Hlock : inotify_lock Scenario.w_ok = false) by reflexivity.
  assert (Hsub : subs Scenario.w_ok !! 1%positive = Some Scenario.sub0) by reflexivity.
  repeat (split; [assumption |]).
  destruct (callback_does_not_read_cancelled Scenario.w_ok Scenario.ev_create 1%positive
              Scenario.sub0 Hlock Hsub) as [Hflag _].
  exact (Hflag true).
Defined.

(** ** Starting up *)

(** A start-up that finds the flag set returns the result that is kept. *)
Lemma startup_initialized w :
  inotify_lock w = false -> initialized w = true ->
  _ih_startup w = Return (result w) w.
Proof.
  intros Hlock Hinit. unfold _ih_startup, bind, G_LOCK, get_initialized.
  rewrite Hlock. cbn [initialized with_lock]. rewrite Hinit.
  cbn [G_UNLOCK get_result result with_lock]. now rewrite unlock_lock.
Qed.

(** A start-up that finds the flag clear starts the watch directory, keeps
    its answer, and goes on to the missing registry when the answer is
    success. *)
Lemma startup_uninitialized w :
  inotify_lock w = false -> initialized w = false ->
  let started := env w (trace w) bool (_ip_startup ih_event_callback_fn) in
  _ih_startup w
  = if started
    then Return true
           {| inotify_lock := false; initialized := true; result := true;
              subs := subs w;
              trace := trace w
                       ++ [ Called (_ip_startup ih_event_callback_fn) true;
                            Called (_im_startup ih_not_missing_callback_fn) tt ];
              env := env w |}
    else Return false
           {| inotify_lock := false; initialized := false; result := false;
              subs := subs w;
              trace := trace w
                       ++ [ Called (_ip_startup ih_event_callback_fn) false ];
              env := env w |}.
Proof.
  intros Hlock Hinit started.
  unfold _ih_startup, bind, G_LOCK, get_initialized.
  rewrite Hlock. cbn [initialized with_lock]. rewrite Hinit.
  rewrite extcall_run. unfold answer at 1 2. cbn [env trace with_lock].
  fold started. unfold set_result. destruct started eqn:Hstarted.
  - cbn [negb IH_W ih_debug_enabled ret]. rewrite extcall_run.
    cbn [set_initialized G_UNLOCK]. f_equal.
    unfold after_call, answer.
    unfold with_lock, with_initialized, with_result, with_trace. cbn.
    fold started. rewrite Hstarted, <- app_assoc. cbn [app].
    now destruct (env w _ unit (_im_startup ih_not_missing_callback_fn)).
  - cbn [negb G_UNLOCK ret]. f_equal.
    unfold after_call, answer.
    unfold with_lock, with_initialized, with_result, with_trace. cbn.
    fold started. now rewrite Hstarted, Hinit.
Qed.

(** C8: when a start-up has returned success, every start-up after it
    returns success and leaves the world as it is: the trace does not grow,
    so neither the watch directory nor the missing registry is started
    again. *)
Theorem startup_success_is_cached w w' :
  _ih_startup w = Return true w' ->
  inotify_lock w' = false
  /\ initialized w' = true
  /\ result w' = true
  /\ _ih_startup w' = Return true w'
  /\ forall n, repeat_call n _ih_startup w' = Return (replicate n true) w'.
Proof.
  intros Hfirst.
  assert (Hlock : inotify_lock w = false).
  { destruct (inotify_lock w) eqn:Hl; [| reflexivity].
    unfold _ih_startup, bind, G_LOCK in Hfirst. now rewrite Hl in Hfirst. }
  assert (Hw' : inotify_lock w' = false /\ initialized w' = true
                /\ result w' = true).
  { destruct (initialized w) eqn:Hinit.
    - rewrite (startup_initialized w Hlock Hinit) in Hfirst.
      injection Hfirst as Hres <-. auto.
    - rewrite (startup_uninitialized w Hlock Hinit) in Hfirst.
      destruct (env w (trace w) bool (_ip_startup ih_event_callback_fn));
        [| discriminate Hfirst].
      injection Hfirst as <-. auto. }
  destruct Hw' as (Hlock' & Hinit' & Hres').
  assert (Hagain : _ih_startup w' = Return true w').
  { rewrite (startup_initialized w' Hlock' Hinit'). now rewrite Hres'. }
  repeat (split; [assumption |]). now apply repeat_call_noop.
Qed.

Lemma startup_success_is_cached_witness :
  exists w',
    _ih_startup Scenario.w_ok = Return true w'
    /\ trace w' = [ Called (_ip_startup ih_event_callback_fn) true;
                    Called (_im_startup ih_not_missing_callback_fn) tt ]
    /\ repeat_call 3 _ih_startup w' = Return [true; true; true] w'.
Proof.
  eexists. split; [reflexivity |]. split; [reflexivity |].
  refine (proj2 (proj2 (proj2 (proj2
            (startup_success_is_cached Scenario.w_ok _ _)))) 3%nat).
  reflexivity.
Defined.

(** C10: a start-up whose watch directory fails to start returns failure
    and leaves the flag clear; the start-up after it asks the watch directory
    to start again, and, when that succeeds, starts the missing registry,
    sets the flag and returns success. *)
Theorem startup_failure_is_not_cached w :
  inotify_lock w = false ->
  initialized w = false ->
  env w (trace w) bool (_ip_startup ih_event_callback_fn) = false ->
  let w1 :=
    {| inotify_lock := false; initialized := false; result := false;
       subs := subs w;
       trace := trace w ++ [ Called (_ip_startup ih_event_callback_fn) false ];
       env := env w |} in
  let again := env w (trace w1) bool (_ip_startup ih_event_callback_fn) in
  _ih_startup w = Return false w1
  /\ initialized w1 = false
  /\ _ih_startup w1
     = (if again
        then Return true
               {| inotify_lock := false; initialized := true; result := true;
                  subs := subs w;
                  trace := trace w1
                           ++ [ Called (_ip_startup ih_event_callback_fn) true;
                                Called (_im_startup ih_not_missing_callback_fn)
                                  tt ];
                  env := env w |}
        else Return false
               {| inotify_lock := false; initialized := false; result := false;
                  subs := subs w;
                  trace := trace w1
                           ++ [ Called (_ip_startup ih_event_callback_fn)
                                  false ];
                  env := env w |}).
Proof.
  intros Hlock Hinit Hfail w1 again.
  split; [| split; [reflexivity |]].
  - rewrite (startup_uninitialized w Hlock Hinit). now rewrite Hfail.
  - apply (startup_uninitialized w1); reflexivity.
Qed.

Lemma startup_failure_is_not_cached_witness :
  inotify_lock Scenario.w_retry = false
  /\ initialized Scenario.w_retry = false
  /\ env Scenario.w_retry (trace Scenario.w_retry) bool (_ip_startup ih_event_callback_fn) = false
  /\ exists w1 w2,
       _ih_startup Scenario.w_retry = Return false w1
       /\ initialized w1 = false
       /\ _ih_startup w1 = Return true w2
       /\ initialized w2 = true
       /\ trace w2 = [ Called (_ip_startup ih_event_callback_fn) false;
                       Called (_ip_startup ih_event_callback_fn) true;
                       Called (_im_startup ih_not_missing_callback_fn) tt ].
Proof.
  assert (Hlock : inotify_lock Scenario.w_retry = false) by reflexivity.
  assert (Hinit : initialized Scenario.w_retry = false) by reflexivity.
  assert (Hfail : env Scenario.w_retry (trace Scenario.w_retry) bool (_ip_startup ih_event_callback_fn)
                  = false) by reflexivity.
  repeat (split; [assumption |]).
  destruct (startup_failure_is_not_cached Scenario.w_retry Hlock Hinit Hfail)
    as (Hfirst & Hflag & Hsecond).
  eexists _, _. split; [exact Hfirst |]. split; [exact Hflag |].
  split; [exact Hsecond |]. split; reflexivity.
Defined.

(** *** Started at most once *)

Lemma count_calls_app p (t1 t2 : list call) :
  count_calls p (t1 ++ t2) = (count_calls p t1 + count_calls p t2)%nat.
Proof. unfold count_calls. now rewrite filter_app, length_app. Qed.

Lemma startup_keeps_inv w :
  startup_inv w ->
  exists r w', _ih_startup w = Return r w' /\ startup_inv w'.
Proof.
  intros [Hlock Hinv]. destruct (initialized w) eqn:Hinit.
  - exists (result w), w. split; [now apply startup_initialized |].
    split; [exact Hlock | now rewrite Hinit].
  - rewrite (startup_uninitialized w Hlock Hinit). destruct Hinv as [Hp Hm].
    destruct (env w (trace w) bool (_ip_startup ih_event_callback_fn)).
    + eexists _, _. split; [reflexivity |]. split; [reflexivity |].
      cbn [initialized result trace]. rewrite !count_calls_app, Hp, Hm.
      repeat split.
    + eexists _, _. split; [reflexivity |]. split; [reflexivity |].
      cbn [initialized result trace]. rewrite !count_calls_app, Hp, Hm.
      repeat split.
Qed.

(** However many start-ups are made, none faults, and the watch directory
    and the missing registry are started at most once. *)
Lemma startup_starts_at_most_once w n :
  startup_inv w ->
  exists l w',
    repeat_call n _ih_startup w = Return l w'
    /\ startup_inv w'
    /\ (count_calls starts_paths (trace w') <= 1)%nat
    /\ (count_calls starts_missing (trace w') <= 1)%nat.
Proof.
  revert w. induction n as [| n IH]; intros w Hinv.
  - exists [], w. split; [reflexivity |]. split; [exact Hinv |].
    destruct Hinv as [_ Hinv]. destruct (initialized w); lia.
  - destruct (startup_keeps_inv w Hinv) as (r & w1 & Hrun & Hinv1).
    destruct (IH w1 Hinv1) as (l & w' & Hrest & Hinv' & Hcount).
    exists (r :: l), w'. split; [| now split].
    cbn [repeat_call]. unfold bind at 1. rewrite Hrun.
    unfold bind at 1. now rewrite Hrest.
Qed.

Example startup_inv_world0 (e : oracle) : startup_inv (Scenario.world0 e).
Proof. repeat split. Qed.

(** ** Adding, and the missing registry *)

(** [_ih_sub_add] returns success; the subscription goes to the missing
    registry when, and only when, the watch directory does not take it. *)
Lemma sub_add_run w sub :
  inotify_lock w = false ->
  let watching := env w (trace w) bool (_ip_start_watching sub) in
  exists w',
    _ih_sub_add sub w = Return true w'
    /\ inotify_lock w' = false
    /\ subs w' = subs w
    /\ trace w'
       = trace w
         ++ Called (_ip_start_watching sub) watching
            :: (if watching then [] else [Called (_im_add sub) tt]).
Proof.
  intros Hlock watching. unfold _ih_sub_add, bind, G_LOCK. rewrite Hlock.
  rewrite extcall_run. unfold answer at 1. cbn [env trace with_lock].
  fold watching. destruct watching eqn:Hw; cbn [negb ret].
  - eexists. split; [reflexivity |]. repeat split.
    unfold after_call, answer. cbn. fold watching. now rewrite Hw.
  - rewrite extcall_run.
    eexists. split; [reflexivity |]. repeat split.
    unfold after_call, answer. cbn. fold watching.
    rewrite Hw, <- app_assoc. cbn [app].
    now destruct (env w _ unit (_im_add sub)).
Qed.

(** When a missing target is back, one "created" event goes to the monitor
    of the subscription, under the file name of the subscription. *)
Lemma not_missing_delivers_created w sub s :
  subs w !! sub = Some s ->
  exists w',
    ih_not_missing_callback sub w = Return tt w'
    /\ delivered (trace w')
       = delivered (trace w)
         ++ [ {| sink := user_data s; kind := G_FILE_MONITOR_EVENT_CREATED;
                 primary := filename s; secondary := None; other_ref := None;
                 time := answer g_get_monotonic_time w |} ].
Proof.
  intros Hsub. unfold ih_not_missing_callback, bind, ret.
  rewrite (load_run _ _ _ Hsub), !extcall_run.
  eexists. split; [reflexivity |].
  cbn [after_call trace with_trace].
  rewrite !delivered_app, <- app_assoc. reflexivity.
Qed.

(** * Further properties *)

(** ** The mapping of masks, backwards *)

(** The ten raw kinds of the table are ten different single bits. *)
Lemma table_keys_single_bits :
  Forall (fun raw => exists n, 0 <= n < 14 /\ raw = 2 ^ n)
    (spec_table ++ deleted_rows).*1.
Proof.
  cbn. repeat first [ apply Forall_nil_2 | apply Forall_cons_2 ].
  all: match goal with
       | |- exists n, _ /\ ?raw = _ =>
           exists (Z.log2 raw); vm_compute; repeat split; congruence
       end.
Qed.

(** A mask that is translated is, the is-directory flag aside, one of the
    ten raw kinds. *)
Lemma translated_mask_in_table mask :
  ih_mask_to_EventFlags mask <> G_FILE_MONITOR_EVENT_NONE ->
  clear_isdir mask ∈ (spec_table ++ deleted_rows).*1.
Proof.
  intros Hk. destruct (decide (clear_isdir mask ∈ (spec_table ++ deleted_rows).*1))
    as [Hin | Hnin]; [exact Hin |].
  exfalso. apply Hk. rewrite ih_mask_to_EventFlags_table.
  now apply table_kind_default.
Qed.


(** X2: a mask with two bits set, the is-directory flag not counted, is not
    translated: it gets the value -1. *)
Theorem two_bits_are_ignored mask i j :
  0 <= i < 32 -> 0 <= j < 32 -> i <> 30 -> j <> 30 -> i <> j ->
  Z.testbit mask i = true -> Z.testbit mask j = true ->
  ih_mask_to_EventFlags mask = G_FILE_MONITOR_EVENT_NONE.
Proof.
  intros Hi Hj Hi30 Hj30 Hij Hbi Hbj.
  assert (Hdec : ih_mask_to_EventFlags mask = G_FILE_MONITOR_EVENT_NONE
                 \/ ih_mask_to_EventFlags mask <> G_FILE_MONITOR_EVENT_NONE)
    by (destruct (ih_mask_to_EventFlags mask); (now left) || (right; discriminate)).
  destruct Hdec as [Hnone | Hk]; [exact Hnone | exfalso].
  apply translated_mask_in_table in Hk.
  pose proof table_keys_single_bits as Hbits. rewrite Forall_forall in Hbits.
  destruct (Hbits _ Hk) as (n & Hn & Hpow).
  assert (Hclear : forall k, 0 <= k < 32 -> k <> 30 -> Z.testbit mask k = true ->
                             k = n).
  { intros k Hk32 Hk30 Hbk.
    assert (Hb : Z.testbit (clear_isdir mask) k = true).
    { rewrite clear_isdir_testbit, Hbk by lia.
      destruct (Z.ltb_spec k 32); [| lia].
      destruct (Z.eqb_spec k 30); [lia | reflexivity]. }
    rewrite Hpow, Z.pow2_bits_eqb in Hb by lia.
    now apply Z.eqb_eq in Hb. }
  apply Hij. rewrite (Hclear i), (Hclear j); auto.
Qed.

Lemma two_bits_are_ignored_witness :
  ih_mask_to_EventFlags (Z.lor IN_CREATE IN_MODIFY) = G_FILE_MONITOR_EVENT_NONE.
Proof.
  apply (two_bits_are_ignored (Z.lor IN_CREATE IN_MODIFY) 8 1);
    first [ lia | reflexivity ].
Defined.

(** ** Full paths, backwards *)

Lemma string_app_cons (a : Ascii.ascii) (s1 s2 : string) :
  String a s1 +:+ s2 = String a (s1 +:+ s2).
Proof. reflexivity. Qed.

Lemma string_app_assoc (s1 s2 s3 : string) :
  s1 +:+ s2 +:+ s3 = (s1 +:+ s2) +:+ s3.
Proof.
  induction s1 as [| a s1 IH]; [reflexivity |].
  rewrite !string_app_cons. now rewrite IH.
Qed.

Lemma string_app_empty_r (s : string) : s +:+ "" = s.
Proof.
  induction s as [| a s IH]; [reflexivity |].
  rewrite string_app_cons. now rewrite IH.
Qed.

Lemma string_length_app (s1 s2 : string) :
  String.length (s1 +:+ s2) = (String.length s1 + String.length s2)%nat.
Proof.
  induction s1 as [| a s1 IH]; [reflexivity |].
  rewrite string_app_cons. cbn [String.length Nat.add]. now rewrite IH.
Qed.

Lemma string_prefix_app (s1 s2 : string) : String.prefix s1 (s1 +:+ s2) = true.
Proof.
  induction s1 as [| a s1 IH]; [now destruct s2 |].
  rewrite string_app_cons. cbn [String.prefix].
  destruct (Ascii.ascii_dec a a); [exact IH | contradiction].
Qed.

Lemma string_substring_all (s : string) :
  String.substring 0 (String.length s) s = s.
Proof.
  induction s as [| b s IH]; [reflexivity |].
  cbn [String.length String.substring]. now rewrite IH.
Qed.

Lemma string_substring_app (s1 s2 : string) :
  String.substring (String.length s1) (String.length s2) (s1 +:+ s2) = s2.
Proof.
  induction s1 as [| a s1 IH]; [apply string_substring_all |].
  rewrite string_app_cons. cbn [String.length String.substring]. exact IH.
Qed.

(** The name that a full path is made of: the override, else the name of the
    event, else nothing. *)
Lemma fullpath_shape (event : ik_event_t) (dir : string) (override : option string) :
  _ih_fullpath_from_event event dir override
  = (dir +:+ "/") +:+ default (default "" (Ev.name event)) override.
Proof.
  unfold _ih_fullpath_from_event.
  destruct override as [o |]; cbn [default]; [apply string_app_assoc |].
  destruct (Ev.name event) as [n |]; cbn [default]; [apply string_app_assoc |].
  now rewrite string_app_empty_r.
Qed.

(** X3: a full path starts with the directory and a separator, nothing is
    dropped or rewritten after them, and the name can be read back from it:
    it is what follows the first [length dir + 1] characters.  So two names
    under one directory give one full path only when they are one name. *)
Theorem fullpath_keeps_the_name
    (event : ik_event_t) (dir : string) (override : option string) :
  let name := default (default ""%string (Ev.name event)) override in
  let fullpath := _ih_fullpath_from_event event dir override in
  String.prefix (dir +:+ "/") fullpath = true
  /\ String.length fullpath
     = (String.length dir + 1 + String.length name)%nat
  /\ String.substring (String.length dir + 1) (String.length name) fullpath
     = name
  /\ (forall event' override',
        _ih_fullpath_from_event event' dir override' = fullpath ->
        default (default ""%string (Ev.name event')) override' = name).
Proof.
  intros name fullpath. unfold fullpath. rewrite fullpath_shape. fold name.
  assert (Hlen : String.length (dir +:+ "/") = (String.length dir + 1)%nat)
    by now rewrite string_length_app.
  split; [apply string_prefix_app |].
  split; [now rewrite string_length_app, Hlen |].
  split; [rewrite <- Hlen; apply string_substring_app |].
  intros event' override'. rewrite fullpath_shape. apply String.app_inj.
Qed.

(** ** What a run keeps *)

Section Preserves.

Context (R : world -> world -> Prop) `{!PreOrder R}.

Lemma preserves_ret {A : Type} (a : A) : preserves R (ret a).
Proof. intros w. cbn. reflexivity. Qed.

Lemma preserves_bind {A B : Type} (m : M A) (k : A -> M B) :
  preserves R m -> (forall a, preserves R (k a)) -> preserves R (bind m k).
Proof.
  intros Hm Hk w. unfold bind. specialize (Hm w).
  destruct (m w) as [a w1 | f w1]; cbn in Hm |- *; [| exact Hm].
  etrans; [exact Hm | apply Hk].
Qed.

Lemma preserves_g_assert (b : bool) : preserves R (g_assert b).
Proof. intros w. unfold g_assert. destruct b; cbn; reflexivity. Qed.

Lemma preserves_load (sub : sub_ptr) : preserves R (load sub).
Proof. intros w. unfold load. destruct (subs w !! sub); cbn; reflexivity. Qed.

Lemma preserves_get_initialized : preserves R get_initialized.
Proof. intros w. cbn. reflexivity. Qed.

Lemma preserves_get_result : preserves R get_result.
Proof. intros w. cbn. reflexivity. Qed.

(** With [ih_debug_enabled] clear, [IH_W] does nothing. *)
Lemma preserves_IH_W (message : string) : preserves R (IH_W message).
Proof. intros w. cbn. reflexivity. Qed.

End Preserves.

#[local] Instance grows_by_preorder (P : call -> bool) : PreOrder (grows_by P).
Proof.
  split.
  - intros w. exists []. split; [now rewrite app_nil_r | constructor].
  - intros w1 w2 w3 (t1 & Ht1 & HP1) (t2 & Ht2 & HP2). exists (t1 ++ t2).
    split; [now rewrite Ht2, Ht1, app_assoc | now apply Forall_app].
Qed.

#[local] Instance same_state_preorder : PreOrder same_state.
Proof.
  split.
  - intros w. now repeat split.
  - intros w1 w2 w3 (Hl1 & Hi1 & Hr1 & Hs1 & He1) (Hl2 & Hi2 & Hr2 & Hs2 & He2).
    repeat split; congruence.
Qed.

Lemma set_cancelled_twice (s : inotify_sub) :
  set_cancelled true (set_cancelled true s) = set_cancelled true s.
Proof. reflexivity. Qed.

#[local] Instance flags_only_set_preorder : PreOrder flags_only_set.
Proof.
  split.
  - intros w sub. now left.
  - intros w1 w2 w3 H12 H23 sub.
    destruct (H23 sub) as [Heq | (s2 & Hs2 & Hs3)].
    + rewrite Heq. apply H12.
    + destruct (H12 sub) as [Heq | (s1 & Hs1 & Hs2')].
      * right. exists s2. now rewrite <- Heq.
      * right. exists s1. split; [exact Hs1 |].
        rewrite Hs3. rewrite Hs2' in Hs2. injection Hs2 as <-.
        now rewrite set_cancelled_twice.
Qed.

(** A run that leaves the trace alone adds no call to it. *)
Lemma grows_by_same_trace (P : call -> bool) w w' :
  trace w' = trace w -> grows_by P w w'.
Proof. intros Ht. exists []. split; [now rewrite app_nil_r | constructor]. Qed.

(** A run that leaves the subscriptions alone changes none. *)
Lemma flags_only_set_same_subs w w' : subs w' = subs w -> flags_only_set w w'.
Proof. intros Hs sub. left. now rewrite Hs. Qed.

Lemma same_state_flags w w' : same_state w w' -> flags_only_set w w'.
Proof. intros (_ & _ & _ & Hs & _). now apply flags_only_set_same_subs. Qed.

(** The steps of the monad, for each of the three relations. *)
Lemma grows_extcall (P : call -> bool) {R : Type} (c : ext R) :
  (forall r, P (Called c r) = true) -> preserves (grows_by P) (extcall c).
Proof.
  intros HP w. exists [Called c (answer c w)].
  split; [reflexivity | repeat constructor; apply HP].
Qed.

Lemma grows_state_steps (P : call -> bool) :
  preserves (grows_by P) G_LOCK
  /\ preserves (grows_by P) G_UNLOCK
  /\ (forall b, preserves (grows_by P) (set_initialized b))
  /\ (forall b, preserves (grows_by P) (set_result b))
  /\ (forall sub s, preserves (grows_by P) (store sub s)).
Proof.
  repeat split; intros; intros w; apply grows_by_same_trace;
    unfold G_LOCK, store;
    repeat match goal with |- context [if ?b then _ else _] => destruct b end;
    repeat match goal with |- context [match ?o with _ => _ end] => destruct o end;
    reflexivity.
Qed.

Lemma same_state_extcall {R : Type} (c : ext R) : preserves same_state (extcall c).
Proof. intros w. now repeat split. Qed.

Lemma flags_extcall {R : Type} (c : ext R) : preserves flags_only_set (extcall c).
Proof. intros w. now apply flags_only_set_same_subs. Qed.

Lemma flags_state_steps :
  preserves flags_only_set G_LOCK
  /\ preserves flags_only_set G_UNLOCK
  /\ (forall b, preserves flags_only_set (set_initialized b))
  /\ (forall b, preserves flags_only_set (set_result b)).
Proof.
  repeat split; intros; intros w; apply flags_only_set_same_subs;
    unfold G_LOCK;
    repeat match goal with |- context [if ?b then _ else _] => destruct b end;
    reflexivity.
Qed.

(** Goes through a function of the source, step by step. *)
Ltac frame :=
  cbv zeta;
  repeat first
    [ progress intros
    | apply preserves_bind
    | apply preserves_ret
    | apply preserves_g_assert
    | apply preserves_load
    | apply preserves_get_initialized
    | apply preserves_get_result
    | apply preserves_IH_W
    | apply same_state_extcall
    | apply flags_extcall
    | apply grows_extcall; intros; reflexivity
    | apply grows_state_steps
    | apply flags_state_steps
    | match goal with
      | |- PreOrder _ => exact _
      | |- preserves _ (if ?b then _ else _) => destruct b
      | |- preserves _ (match ?o with _ => _ end) => destruct o
      end ].

Lemma callback_same_state event sub file_event :
  preserves same_state (ih_event_callback event sub file_event).
Proof. unfold ih_event_callback. frame. Qed.

Lemma callback_grows event sub file_event :
  preserves (grows_by delivery_call) (ih_event_callback event sub file_event).
Proof. unfold ih_event_callback. frame. Qed.

Lemma not_missing_same_state sub :
  preserves same_state (ih_not_missing_callback sub).
Proof. unfold ih_not_missing_callback. frame. Qed.

Lemma not_missing_grows sub :
  preserves (grows_by delivery_call) (ih_not_missing_callback sub).
Proof. unfold ih_not_missing_callback. frame. Qed.

Lemma startup_grows : preserves (grows_by registry_call) _ih_startup.
Proof. unfold _ih_startup. frame. Qed.

Lemma sub_add_grows sub : preserves (grows_by registry_call) (_ih_sub_add sub).
Proof. unfold _ih_sub_add. frame. Qed.

Lemma sub_cancel_grows sub :
  preserves (grows_by registry_call) (_ih_sub_cancel sub).
Proof. unfold _ih_sub_cancel. frame. Qed.

Lemma startup_flags : preserves flags_only_set _ih_startup.
Proof. unfold _ih_startup. frame. Qed.

Lemma sub_add_flags sub : preserves flags_only_set (_ih_sub_add sub).
Proof. unfold _ih_sub_add. frame. Qed.

Lemma cancel_locked w sub :
  inotify_lock w = true -> _ih_sub_cancel sub w = Stop deadlock w.
Proof. intros Hlock. unfold _ih_sub_cancel, bind, G_LOCK. now rewrite Hlock. Qed.

Lemma cancel_unallocated w sub :
  inotify_lock w = false -> subs w !! sub = None ->
  _ih_sub_cancel sub w = Stop invalid_pointer (with_lock true w).
Proof.
  intros Hlock Hsub. unfold _ih_sub_cancel, bind, G_LOCK, load.
  rewrite Hlock. cbn [subs with_lock]. now rewrite Hsub.
Qed.

Lemma sub_cancel_flags sub : preserves flags_only_set (_ih_sub_cancel sub).
Proof.
  intros w. destruct (inotify_lock w) eqn:Hlock.
  { rewrite (cancel_locked w sub Hlock). reflexivity. }
  destruct (subs w !! sub) as [s |] eqn:Hsub.
  - destruct (cancelled s) eqn:Hc.
    + rewrite (cancel_cancelled w sub s Hlock Hsub Hc). reflexivity.
    + rewrite (cancel_first w sub s Hlock Hsub Hc). intros other.
      cbn [outcome_world subs]. destruct (decide (other = sub)) as [-> | Hne].
      * right. exists s. split; [exact Hsub | apply lookup_insert_eq].
      * left. now apply lookup_insert_ne.
  - rewrite (cancel_unallocated w sub Hlock Hsub).
    now apply flags_only_set_same_subs.
Qed.

(** Calls into the registries deliver nothing. *)
Lemma grows_by_registry_delivers_nothing w w' :
  grows_by registry_call w w' -> delivered (trace w') = delivered (trace w).
Proof.
  intros (t & -> & HP). rewrite delivered_app.
  assert (Hnil : delivered t = []).
  { induction HP as [| c t Hc _ IH]; [reflexivity |].
    destruct c as [R c r]. destruct c; try discriminate Hc; exact IH. }
  now rewrite Hnil, app_nil_r.
Qed.

(** X5: the two callbacks change nothing but the trace: they leave the lock
    as they find it (their caller holds it), and the statics and every
    subscription as they are; and the calls they make are the path look-up,
    the making and the release of a file, the delivery and the clock: they
    start, add and drop nothing.  This holds for a run that stops as for one
    that returns. *)
Theorem callbacks_change_only_the_trace
    (event : ik_event_t) (sub : sub_ptr) (file_event : bool) (w : world) :
  same_state w (outcome_world (ih_event_callback event sub file_event w))
  /\ grows_by delivery_call w
       (outcome_world (ih_event_callback event sub file_event w))
  /\ same_state w (outcome_world (ih_not_missing_callback sub w))
  /\ grows_by delivery_call w (outcome_world (ih_not_missing_callback sub w)).
Proof.
  split; [apply callback_same_state |]. split; [apply callback_grows |].
  split; [apply not_missing_same_state | apply not_missing_grows].
Qed.

(** X6: start-up, add and cancel call nothing but the watch directory and
    the missing registry: they write no warning, and they deliver no event
    to any monitor, however they end. *)
Theorem lifecycle_calls_only_the_registries (sub : sub_ptr) (w : world) :
  grows_by registry_call w (outcome_world (_ih_startup w))
  /\ grows_by registry_call w (outcome_world (_ih_sub_add sub w))
  /\ grows_by registry_call w (outcome_world (_ih_sub_cancel sub w))
  /\ delivered (trace (outcome_world (_ih_startup w))) = delivered (trace w)
  /\ delivered (trace (outcome_world (_ih_sub_add sub w))) = delivered (trace w)
  /\ delivered (trace (outcome_world (_ih_sub_cancel sub w)))
     = delivered (trace w).
Proof.
  pose proof (startup_grows w) as Hs. pose proof (sub_add_grows sub w) as Ha.
  pose proof (sub_cancel_grows sub w) as Hc.
  repeat split; try assumption; now apply grows_by_registry_delivers_nothing.
Qed.







(** ** The lock *)

Lemma startup_returns w :
  inotify_lock w = false ->
  exists r w', _ih_startup w = Return r w' /\ inotify_lock w' = false.
Proof.
  intros Hlock. destruct (initialized w) eqn:Hinit.
  - exists (result w), w. split; [now apply startup_initialized | exact Hlock].
  - rewrite (startup_uninitialized w Hlock Hinit).
    destruct (env w (trace w) bool (_ip_startup ih_event_callback_fn));
      eexists _, _; split; reflexivity.
Qed.

(** X8: a public function that is entered with the lock free returns with
    the lock free, on each of its paths, the early returns of start-up
    included; start-up and add do not fault, cancel does not fault on a
    subscription that is allocated, and add and cancel return success. *)
Theorem public_functions_release_the_lock w :
  inotify_lock w = false ->
  (exists r w', _ih_startup w = Return r w' /\ inotify_lock w' = false)
  /\ (forall sub, exists w',
         _ih_sub_add sub w = Return true w' /\ inotify_lock w' = false)
  /\ (forall sub, is_Some (subs w !! sub) ->
      exists w',
        _ih_sub_cancel sub w = Return true w' /\ inotify_lock w' = false).
Proof.
  intros Hlock. split; [now apply startup_returns |]. split.
  - intros sub. destruct (sub_add_run w sub Hlock) as (w' & Hrun & Hl & _).
    now exists w'.
  - intros sub [s Hsub]. destruct (cancelled s) eqn:Hc.
    + exists w. split; [now apply (cancel_cancelled w sub s) | exact Hlock].
    + eexists. split; [now apply (cancel_first w sub s) | reflexivity].
Qed.

Lemma public_functions_release_the_lock_witness :
  exists w',
    _ih_sub_cancel 1%positive Scenario.w_ok = Return true w'
    /\ inotify_lock w' = false.
Proof.
  assert (Hlock : inotify_lock Scenario.w_ok = false) by reflexivity.
  destruct (public_functions_release_the_lock Scenario.w_ok Hlock)
    as (_ & _ & Hcancel).
  apply (Hcancel 1%positive). now exists Scenario.sub0.
Defined.

(** ** Adding *)

(** X9: add returns success and leaves the statics and the subscriptions
    as they are.  It asks the watch directory to watch the subscription, and
    hands it to the missing registry when, and only when, the watch directory
    refuses: the subscription is handed to one of the two, never to both and
    never to none.  It does not read the subscription: it does the same for
    one that is cancelled, and for an address with no subscription. *)
Theorem sub_add_registers_in_one_place w sub :
  inotify_lock w = false ->
  let watching := env w (trace w) bool (_ip_start_watching sub) in
  (exists w',
      _ih_sub_add sub w = Return true w'
      /\ same_state w w'
      /\ trace w'
         = trace w
           ++ (if watching
               then [ Called (_ip_start_watching sub) true ]
               else [ Called (_ip_start_watching sub) false;
                      Called (_im_add sub) tt ]))
  /\ (forall m,
        _ih_sub_add sub (with_subs m w)
        = on_world (with_subs m) (_ih_sub_add sub w)).
Proof.
  intros Hlock watching. split.
  - destruct (sub_add_run w sub Hlock) as (w' & Hrun & Hl & Hs & Ht).
    exists w'. split; [exact Hrun |]. split.
    + unfold _ih_sub_add, bind, G_LOCK in Hrun. rewrite Hlock in Hrun.
      rewrite extcall_run in Hrun.
      destruct (negb (answer (_ip_start_watching sub) (with_lock true w)));
        cbn in Hrun; injection Hrun as <-; repeat split; now cbn.
    + rewrite Ht. fold watching. now destruct watching.
  - intros m. unfold _ih_sub_add, bind, G_LOCK. cbn [inotify_lock with_subs].
    destruct (inotify_lock w); [reflexivity |]. rewrite !extcall_run.
    change (answer (_ip_start_watching sub) (with_lock true (with_subs m w)))
      with (answer (_ip_start_watching sub) (with_lock true w)).
    destruct (negb (answer (_ip_start_watching sub) (with_lock true w)));
      reflexivity.
Qed.

Lemma sub_add_registers_in_one_place_witness :
  exists w',
    _ih_sub_add 5%positive Scenario.w_ok = Return true w'
    /\ trace w' = [ Called (_ip_start_watching 5%positive) true ].
Proof.
  assert (Hlock : inotify_lock Scenario.w_ok = false) by reflexivity.
  destruct (sub_add_registers_in_one_place Scenario.w_ok 5%positive Hlock)
    as [(w' & Hrun & _ & Ht) _].
  exists w'. split; [exact Hrun | exact Ht].
Defined.

(** ** What is delivered *)

Lemma mask_kind_not_renamed mask :
  ih_mask_to_EventFlags mask <> G_FILE_MONITOR_EVENT_RENAMED.
Proof.
  rewrite ih_mask_to_EventFlags_table. generalize (clear_isdir mask) as m.
  intros m. cbn [spec_table deleted_rows app table_kind].
  repeat match goal with
         | |- context [m =? ?b] => destruct (Z.eqb_spec m b) as [-> | ?]
         end; discriminate.
Qed.

(** X10: when the target of a missing subscription is back, the callback
    asks the clock and delivers one "created" event to the monitor of the
    subscription: under the file name of the subscription (none, for a
    subscription to a directory), with no secondary name and no other file,
    at the time of the clock.  It makes no other call, and it does this for a
    cancelled subscription as for any other. *)
Theorem reappearance_delivers_created w sub s :
  subs w !! sub = Some s ->
  let clock := answer g_get_monotonic_time w in
  let created :=
    g_file_monitor_source_handle_event
      (user_data s) G_FILE_MONITOR_EVENT_CREATED (filename s) None None clock in
  exists w',
    ih_not_missing_callback sub w = Return tt w'
    /\ same_state w w'
    /\ trace w'
       = trace w
         ++ [ Called g_get_monotonic_time clock;
              Called created (answer created (after_call g_get_monotonic_time w)) ]
    /\ delivered (trace w')
       = delivered (trace w)
         ++ [ {| sink := user_data s; kind := G_FILE_MONITOR_EVENT_CREATED;
                 primary := filename s; secondary := None; other_ref := None;
                 time := clock |} ].
Proof.
  intros Hsub clock created. unfold ih_not_missing_callback, bind, ret.
  rewrite (load_run _ _ _ Hsub), !extcall_run. fold clock. fold created.
  eexists. split; [reflexivity |]. split; [now repeat split |].
  assert (Ht : trace (after_call created (after_call g_get_monotonic_time w))
               = trace w
                 ++ [ Called g_get_monotonic_time clock;
                      Called created
                        (answer created (after_call g_get_monotonic_time w)) ]).
  { cbn [after_call trace with_trace]. now rewrite <- app_assoc. }
  split; [exact Ht |]. rewrite Ht, delivered_app. reflexivity.
Qed.

Lemma reappearance_delivers_created_witness :
  exists w',
    ih_not_missing_callback 1%positive (flag_sub 1%positive true Scenario.w_ok)
    = Return tt w'
    /\ delivered (trace w')
       = [ {| sink := 42; kind := G_FILE_MONITOR_EVENT_CREATED;
              primary := None; secondary := None; other_ref := None;
              time := 0 |} ].
Proof.
  assert (Hsub : subs (flag_sub 1%positive true Scenario.w_ok) !! 1%positive
                 = Some (set_cancelled true Scenario.sub0)) by reflexivity.
  destruct (reappearance_delivers_created _ _ _ Hsub)
    as (w' & Hrun & _ & _ & Hd).
  exists w'. split; [exact Hrun | exact Hd].
Defined.

(** X11: an event whose mask has no move bit is delivered by one call, and
    no other call is made: to the monitor of the subscription, with the kind
    of its mask, under the name it carries (the directory of the subscription
    is not put before it), with no secondary name and no other file, at its
    own time.  A pair, if it has one, is not looked at; and a mask that is
    not translated is delivered all the same, with the value -1 for a kind. *)
Theorem plain_event_is_delivered_as_it_is w event sub s :
  Z.land (Ev.mask event) IN_MOVE = 0 ->
  subs w !! sub = Some s ->
  let deliver :=
    g_file_monitor_source_handle_event
      (user_data s) (ih_mask_to_EventFlags (Ev.mask event)) (Ev.name event)
      None None (Ev.timestamp event) in
  ih_event_callback event sub false w = Return tt (after_call deliver w)
  /\ trace (after_call deliver w)
     = trace w ++ [ Called deliver (answer deliver w) ]
  /\ forall paired,
       ih_event_callback
         (Ev.Build (Ev.wd event) (Ev.mask event) (Ev.name event) paired
            (Ev.timestamp event)) sub false w
       = ih_event_callback event sub false w.
Proof.
  intros Hplain Hsub deliver.
  assert (Hrun : forall paired,
             ih_event_callback
               (Ev.Build (Ev.wd event) (Ev.mask event) (Ev.name event) paired
                  (Ev.timestamp event)) sub false w
             = Return tt (after_call deliver w)).
  { intros paired. unfold ih_event_callback, bind at 1. cbn [g_assert negb].
    unfold is_move. cbn [Ev.mask Ev.name Ev.timestamp].
    rewrite Hplain. cbn [Z.eqb negb]. unfold bind, ret.
    now rewrite (load_run _ _ _ Hsub), extcall_run. }
  assert (Hevent : ih_event_callback event sub false w
                   = Return tt (after_call deliver w)).
  { rewrite <- (Hrun (Ev.pair event)). now destruct event. }
  split; [exact Hevent |]. split; [reflexivity |].
  intros paired. now rewrite Hrun, Hevent.
Qed.

Lemma plain_event_is_delivered_as_it_is_witness :
  exists w',
    ih_event_callback
      (Ev.Build 7 IN_OPEN (Some "foo.txt"%string) None 1000) 1%positive false
      Scenario.w_ok = Return tt w'
    /\ delivered (trace w')
       = [ {| sink := 42; kind := G_FILE_MONITOR_EVENT_NONE;
              primary := Some "foo.txt"%string; secondary := None;
              other_ref := None; time := 1000 |} ].
Proof.
  assert (Hplain : Z.land (Ev.mask (Ev.Build 7 IN_OPEN (Some "foo.txt"%string)
                                      None 1000)) IN_MOVE = 0) by reflexivity.
  assert (Hsub : subs Scenario.w_ok !! 1%positive = Some Scenario.sub0)
    by reflexivity.
  destruct (plain_event_is_delivered_as_it_is _ _ _ _ Hplain Hsub)
    as (Hrun & _ & _).
  eexists. split; [exact Hrun | reflexivity].
Defined.

Lemma is_move_spec event :
  is_move event = true <-> Z.land (Ev.mask event) IN_MOVE <> 0.
Proof.
  unfold is_move. destruct (Z.eqb_spec (Z.land (Ev.mask event) IN_MOVE) 0);
    cbn; split; intros H; congruence.
Qed.

Lemma is_rename_spec event :
  is_rename event = true
  <-> exists paired, Ev.pair event = Some paired /\ Ev.wd paired = Ev.wd event.
Proof.
  unfold is_rename. destruct (Ev.pair event) as [paired |].
  - rewrite Z.eqb_eq. split; [intros Hwd; now exists paired |].
    now intros (p & [= <-] & Hwd).
  - split; [discriminate | now intros (p & Hp & _)].
Qed.

(** X12: the one event that the callback delivers is "renamed" when, and
    only when, the mask has a move bit and the event has a pair on its own
    watch.  An event that is not "renamed" has no secondary name; an event
    that is "renamed" has no other file; and an event with an other file has
    a move bit and a pair on another watch. *)
Theorem renamed_exactly_for_a_pair_on_the_same_watch w event sub s :
  subs w !! sub = Some s ->
  exists w' e,
    ih_event_callback event sub false w = Return tt w'
    /\ delivered (trace w') = delivered (trace w) ++ [e]
    /\ (kind e = G_FILE_MONITOR_EVENT_RENAMED
        <-> Z.land (Ev.mask event) IN_MOVE <> 0
            /\ exists paired,
                Ev.pair event = Some paired /\ Ev.wd paired = Ev.wd event)
    /\ (kind e <> G_FILE_MONITOR_EVENT_RENAMED -> secondary e = None)
    /\ (kind e = G_FILE_MONITOR_EVENT_RENAMED -> other_ref e = None)
    /\ (other_ref e <> None ->
        Z.land (Ev.mask event) IN_MOVE <> 0
        /\ exists paired,
            Ev.pair event = Some paired /\ Ev.wd paired <> Ev.wd event).
Proof.
  intros Hsub. pose proof (is_move_spec event) as Hmove.
  pose proof (is_rename_spec event) as Hrename.
  pose proof (mask_kind_not_renamed (Ev.mask event)) as Hkind.
  unfold ih_event_callback, bind at 1. cbn [g_assert negb].
  destruct (is_move event); [destruct (is_rename event) eqn:Hren |].
  - unfold bind, ret. rewrite (load_run _ _ _ Hsub), extcall_run.
    eexists _, _. split; [reflexivity |].
    cbn [after_call trace with_trace]. rewrite delivered_app.
    split; [reflexivity |]. cbn [kind secondary other_ref].
    split; [split; [intros _; split; [now apply Hmove | now apply Hrename] | reflexivity] |].
    split; [contradiction |]. split; [reflexivity | contradiction].
  - unfold is_rename in Hren.
    destruct (Ev.pair event) as [paired |] eqn:Hpair.
    + unfold bind, ret. rewrite !extcall_run.
      erewrite load_run by exact Hsub. rewrite !extcall_run.
      destruct (answer (g_object_unref _) _).
      eexists _, _. split; [reflexivity |].
      cbn [after_call trace with_trace]. rewrite !delivered_app.
      rewrite <- !app_assoc. split; [reflexivity |].
      cbn [kind secondary other_ref].
      split; [split; [contradiction | intros [_ Hp]; apply Hrename in Hp; discriminate] |].
      split; [reflexivity |]. split; [contradiction |].
      intros _. split; [now apply Hmove |].
      exists paired. split; [reflexivity | now apply Z.eqb_neq].
    + unfold bind, ret. rewrite (load_run _ _ _ Hsub), extcall_run.
      eexists _, _. split; [reflexivity |].
      cbn [after_call trace with_trace]. rewrite delivered_app.
      split; [reflexivity |]. cbn [kind secondary other_ref].
      split; [split; [contradiction | intros [_ Hp]; apply Hrename in Hp; discriminate] |].
      split; [reflexivity |]. split; [reflexivity | contradiction].
  - unfold bind, ret. rewrite (load_run _ _ _ Hsub), extcall_run.
    eexists _, _. split; [reflexivity |].
    cbn [after_call trace with_trace]. rewrite delivered_app.
    split; [reflexivity |]. cbn [kind secondary other_ref].
    split; [split; [contradiction | intros [Hm _]; apply Hmove in Hm; discriminate] |].
    split; [reflexivity |]. split; [reflexivity | contradiction].
Qed.

Lemma renamed_exactly_for_a_pair_on_the_same_watch_witness :
  exists w' e,
    ih_event_callback Scenario.ev_move_across 1%positive false Scenario.w_ok
    = Return tt w'
    /\ delivered (trace w') = [e]
    /\ kind e <> G_FILE_MONITOR_EVENT_RENAMED.
Proof.
  assert (Hsub : subs Scenario.w_ok !! 1%positive = Some Scenario.sub0)
    by reflexivity.
  destruct (renamed_exactly_for_a_pair_on_the_same_watch
              Scenario.w_ok Scenario.ev_move_across 1%positive Scenario.sub0 Hsub)
    as (w' & e & Hrun & Hd & Hiff & _).
  exists w', e. split; [exact Hrun |]. split; [exact Hd |].
  intros Hk. apply Hiff in Hk as (_ & paired & [= <-] & Hwd). discriminate Hwd.
Defined.

(** ** Start-ups in a row *)

(** X13: start-ups made in a row from a state that is not initialized fail
    until the watch directory starts, and succeed from then on: the results
    are some failures and then successes only.  Each failure is one call that
    asks the watch directory to start, and nothing else; the first success
    asks it once more and then starts the missing registry; the successes
    after it call nothing.  No start-up faults, and each returns with the
    lock free. *)
Theorem startup_fails_until_it_succeeds (n : nat) w :
  inotify_lock w = false ->
  initialized w = false ->
  exists (k : nat) w',
    (k <= n)%nat
    /\ repeat_call n _ih_startup w
       = Return (replicate k false ++ replicate (n - k) true) w'
    /\ trace w'
       = trace w
         ++ replicate k (Called (_ip_startup ih_event_callback_fn) false)
         ++ (if initialized w'
             then [ Called (_ip_startup ih_event_callback_fn) true;
                    Called (_im_startup ih_not_missing_callback_fn) tt ]
             else [])
    /\ initialized w' = bool_decide (k < n)%nat
    /\ inotify_lock w' = false.
Proof.
  revert w. induction n as [| n IH]; intros w Hlock Hinit.
  - exists 0%nat, w. split; [lia |]. split; [reflexivity |].
    rewrite Hinit. cbn. rewrite app_nil_r. now repeat split.
  - cbn [repeat_call]. unfold bind at 1.
    rewrite (startup_uninitialized w Hlock Hinit).
    destruct (env w (trace w) bool (_ip_startup ih_event_callback_fn)).
    + match goal with
      | |- context [bind (repeat_call n _ih_startup) _ ?W] => set (w1 := W)
      end.
      assert (Hagain : _ih_startup w1 = Return true w1)
        by now apply (startup_initialized w1).
      exists 0%nat, w1. split; [lia |].
      unfold bind at 1. rewrite (repeat_call_noop _ _ _ Hagain n).
      split; [now rewrite Nat.sub_0_r |].
      split; [reflexivity |]. split; [| reflexivity].
      cbn [initialized w1]. symmetry. apply bool_decide_eq_true. lia.
    + match goal with
      | |- context [bind (repeat_call n _ih_startup) _ ?W] => set (w1 := W)
      end.
      destruct (IH w1) as (k & w' & Hk & Hrun & Ht & Hi & Hl); [reflexivity .. |].
      exists (S k), w'. split; [lia |].
      unfold bind at 1. rewrite Hrun. split; [reflexivity |].
      split; [| split; [| exact Hl]].
      * rewrite Ht. cbn [trace w1 replicate]. now rewrite <- !app_assoc.
      * rewrite Hi. apply bool_decide_ext. lia.
Qed.

Lemma startup_fails_until_it_succeeds_witness :
  exists w',
    repeat_call 3 _ih_startup Scenario.w_retry = Return [false; true; true] w'
    /\ trace w' = [ Called (_ip_startup ih_event_callback_fn) false;
                    Called (_ip_startup ih_event_callback_fn) true;
                    Called (_im_startup ih_not_missing_callback_fn) tt ].
Proof.
  assert (Hlock : inotify_lock Scenario.w_retry = false) by reflexivity.
  assert (Hinit : initialized Scenario.w_retry = false) by reflexivity.
  destruct (startup_fails_until_it_succeeds 3 Scenario.w_retry Hlock Hinit)
    as (k & w' & _ & Hrun & _).
  eexists. split; reflexivity.
Defined.

(** ** Adding and cancelling *)



(** X15: a subscription that is cancelled can be added again: the add does
    not look at the flag and does not clear it, and hands the subscription to
    the watch directory or to the missing registry.  A cancel after that
    finds the flag set and does nothing: the subscription stays with the
    registry it was handed to, however often cancel is called. *)
Theorem readded_subscription_is_not_dropped w sub s :
  inotify_lock w = false ->
  subs w !! sub = Some s ->
  cancelled s = true ->
  let watching := env w (trace w) bool (_ip_start_watching sub) in
  exists w',
    _ih_sub_add sub w = Return true w'
    /\ trace w'
       = trace w
         ++ (if watching
             then [ Called (_ip_start_watching sub) true ]
             else [ Called (_ip_start_watching sub) false;
                    Called (_im_add sub) tt ])
    /\ subs w' !! sub = Some s
    /\ forall n, repeat_call n (_ih_sub_cancel sub) w'
                 = Return (replicate n true) w'.
Proof.
  intros Hlock Hsub Hc watching.
  destruct (sub_add_run w sub Hlock) as (w1 & Hadd & Hlock1 & Hsubs1 & Ht1).
  assert (Hsub1 : subs w1 !! sub = Some s) by now rewrite Hsubs1.
  exists w1. split; [exact Hadd |]. split.
  - rewrite Ht1. subst watching.
    now destruct (env w (trace w) bool (_ip_start_watching sub)).
  - split; [exact Hsub1 |]. apply repeat_call_noop.
    now apply (cancel_cancelled w1 sub s).
Qed.

Lemma readded_subscription_is_not_dropped_witness :
  exists w',
    _ih_sub_add 1%positive (flag_sub 1%positive true Scenario.w_ok)
    = Return true w'
    /\ repeat_call 2 (_ih_sub_cancel 1%positive) w' = Return [true; true] w'.
Proof.
  assert (Hlock : inotify_lock (flag_sub 1%positive true Scenario.w_ok) = false)
    by reflexivity.
  assert (Hsub : subs (flag_sub 1%positive true Scenario.w_ok) !! 1%positive
                 = Some (set_cancelled true Scenario.sub0)) by reflexivity.
  assert (Hc : cancelled (set_cancelled true Scenario.sub0) = true)
    by reflexivity.
  destruct (readded_subscription_is_not_dropped _ _ _ Hlock Hsub Hc)
    as (w' & Hadd & _ & _ & Hcancel).
  exists w'. split; [exact Hadd | exact (Hcancel 2%nat)].
Defined.

(** ** Directories *)

(** X4: the is-directory flag changes nothing in what the callback does: an
    event about a directory takes the same branch, makes the same calls and
    is delivered with the same kind and names as the event without the
    flag. *)
Theorem directory_events_are_translated_like_file_events
    (event : ik_event_t) (sub : sub_ptr) (file_event : bool) (w : world) :
  ih_event_callback
    (Ev.Build (Ev.wd event) (Z.lor (Ev.mask event) IN_ISDIR) (Ev.name event)
       (Ev.pair event) (Ev.timestamp event)) sub file_event w
  = ih_event_callback event sub file_event w.
Proof.
  destruct event as [wd mask name paired timestamp]. cbn [Ev.wd Ev.mask Ev.name Ev.pair Ev.timestamp].
  assert (Hmove : is_move (Ev.Build wd (Z.lor mask IN_ISDIR) name paired timestamp)
                  = is_move (Ev.Build wd mask name paired timestamp)).
  { unfold is_move. cbn [Ev.mask]. rewrite Z.land_lor_distr_l.
    change (Z.land IN_ISDIR IN_MOVE) with 0. now rewrite Z.lor_0_r. }
  assert (Hkind : ih_mask_to_EventFlags (Z.lor mask IN_ISDIR)
                  = ih_mask_to_EventFlags mask).
  { now rewrite !ih_mask_to_EventFlags_table, clear_isdir_lor_isdir. }
  unfold ih_event_callback. rewrite Hmove.
  cbn [Ev.wd Ev.mask Ev.name Ev.pair Ev.timestamp]. now rewrite Hkind.
Qed.
